(** * binance/websockets.py: reconnecting websockets and their manager

    A shallow embedding of [ReconnectingWebsocket] and
    [BinanceSocketManager].  Coroutines are written as state-passing
    functions; what the asyncio runtime, the [websockets] library, the
    REST client and [random()] hand back at an [await] is an input of the
    model, and a coroutine of the manager runs to its end with no other
    task in between.  Times are exact rationals (seconds); a [str] is a
    sequence of 8-bit characters. *)

From Stdlib Require Import ZArith QArith Qround String Ascii List Bool Lia.
From Stdlib Require Import DecimalString.
Import ListNotations.
Local Open Scope string_scope.
Local Open Scope list_scope.

(** ** Python values shared by both classes *)

(** What [json.loads] returns. *)
#[warnings="-register-all"]
Inductive json : Type :=
| JNull
| JBool (b : bool)
| JInt (z : Z)
| JFloat (q : Q)
| JStr (s : string)
| JList (l : list json)
| JDict (kv : list (string * json)).

(** What a call of [json.loads] does: it returns a value, it raises
    [ValueError] (the decode error of the module and the Unicode decode
    error are subclasses), or it raises another exception, as
    [RecursionError] on input nested deeper than it can follow. *)
Inductive loaded : Type :=
| Loaded (v : json)
| RaisesValueError
| RaisesOther.

(** A message handler of the caller (the [coro] argument), by identity. *)
Definition callback : Type := nat.

(** A transport handle returned by [ws.connect]. *)
Definition socket : Type := nat.

(** Python's [round(x)] on a real: to the nearest integer, ties to even. *)
Definition py_round (x : Q) : Z :=
  let f := Qfloor x in
  match Qcompare (x - inject_Z f) (1 # 2) with
  | Lt => f
  | Gt => f + 1
  | Eq => if Z.even f then f else f + 1
  end%Z.

(** [x and not-empty]: truth value of a [str]. *)
Definition str_truthy (s : string) : bool :=
  match s with EmptyString => false | _ => true end.

(** Truth value of a [str] or [None]. *)
Definition opt_truthy (o : option string) : bool :=
  match o with Some s => str_truthy s | None => false end.

(** ** class ReconnectingWebsocket *)

Module ReconnectingWebsocket.

Definition MAX_RECONNECTS : Z := 1000.
Definition MAX_RECONNECT_SECONDS : Z := 1.
Definition MIN_RECONNECT_WAIT : Q := 1 # 10.
Definition TIMEOUT : Z := 2.

(** The asyncio task held in [self._conn]: [cancel()] requests its
    cancellation, [cancelled()] tells whether it ended cancelled. *)
Record task : Type := {
  task_id : nat;
  cancel_requested : bool;
  task_cancelled : bool
}.

(** Where the [_run] coroutine of the latest task stands: scheduled and
    opening the transport, awaiting a frame inside the [while] loop (with
    the local variable [socket] of the [async with]), or not running. *)
Inductive pc : Type :=
| Connecting
| Receiving (sock : socket)
| Returned.

(** The fields of the object, the control point of its coroutine and the
    number of tasks [_connect] has created so far. *)
Record t : Type := {
  ws_domain : string;
  _path : string;
  _prefix : string;
  _coro : option callback;
  _reconnects : Z;
  _conn : option task;
  _socket : option socket;
  run_pc : pc;
  spawned : nat
}.

Definition set_reconnects (v : Z) (o : t) : t :=
  {| ws_domain := ws_domain o; _path := _path o; _prefix := _prefix o;
     _coro := _coro o; _reconnects := v; _conn := _conn o;
     _socket := _socket o; run_pc := run_pc o; spawned := spawned o |}.

Definition set_conn (v : option task) (o : t) : t :=
  {| ws_domain := ws_domain o; _path := _path o; _prefix := _prefix o;
     _coro := _coro o; _reconnects := _reconnects o; _conn := v;
     _socket := _socket o; run_pc := run_pc o; spawned := spawned o |}.

Definition set_socket (v : option socket) (o : t) : t :=
  {| ws_domain := ws_domain o; _path := _path o; _prefix := _prefix o;
     _coro := _coro o; _reconnects := _reconnects o; _conn := _conn o;
     _socket := v; run_pc := run_pc o; spawned := spawned o |}.

Definition set_pc (v : pc) (o : t) : t :=
  {| ws_domain := ws_domain o; _path := _path o; _prefix := _prefix o;
     _coro := _coro o; _reconnects := _reconnects o; _conn := _conn o;
     _socket := _socket o; run_pc := v; spawned := spawned o |}.

Definition set_spawned (v : nat) (o : t) : t :=
  {| ws_domain := ws_domain o; _path := _path o; _prefix := _prefix o;
     _coro := _coro o; _reconnects := _reconnects o; _conn := _conn o;
     _socket := _socket o; run_pc := run_pc o; spawned := v |}.

(** What a method does to the outside, in program order. *)
Inductive effect : Type :=
| LogDebug (msg : string)
| LogError (msg : string)
| WsConnect (url : string)
| WsClose (sock : socket)
| Ping (sock : socket)
| Dispatch (h : callback) (obj : json)
| TaskCancel (tid : nat)
| Sleep (seconds : Q)
| EnsureFuture (tid : nat).

(** [ws_url] of [_run]. *)
Definition ws_url (o : t) : string :=
  (ws_domain o ++ _prefix o ++ _path o)%string.

(** [_connect]: [self._conn = asyncio.ensure_future(self._run())]. *)
Definition _connect (o : t) : t * list effect :=
  let tid := spawned o in
  let k := {| task_id := tid; cancel_requested := false;
              task_cancelled := false |} in
  (set_pc Connecting (set_spawned (S tid) (set_conn (Some k) o)),
   [EnsureFuture tid]).

(** [__init__]. *)
Definition new (domain path : string) (coro : option callback)
    (prefix : string) : t * list effect :=
  _connect {| ws_domain := domain; _path := path; _prefix := prefix;
              _coro := coro; _reconnects := 0; _conn := None;
              _socket := None; run_pc := Returned; spawned := 0 |}.

(** [_get_reconnect_wait(attempts)], with [r] the value drawn by
    [random()].  [attempts] is a non-negative [int] at every call. *)
Definition _get_reconnect_wait (attempts : Z) (r : Q) : Z :=
  let expo := (2 ^ attempts)%Z in
  py_round (r * inject_Z (Z.min MAX_RECONNECT_SECONDS (expo - 1)) + 1).

(** The same with the product and the sum rounded to a float by [fl]. *)
Definition _get_reconnect_wait_fl (fl : Q -> Q) (attempts : Z) (r : Q) : Z :=
  let expo := (2 ^ attempts)%Z in
  py_round
    (fl (fl (r * inject_Z (Z.min MAX_RECONNECT_SECONDS (expo - 1))) + 1)).

Definition request_cancel (k : task) : task :=
  {| task_id := task_id k; cancel_requested := true;
     task_cancelled := task_cancelled k |}.

(** [cancel]: [self._conn.cancel(); self._socket = None].  [None] is the
    [AttributeError] raised when [self._conn] is [None]. *)
Definition cancel (o : t) : option (t * list effect) :=
  match _conn o with
  | None => None
  | Some k =>
      Some (set_socket None (set_conn (Some (request_cancel k)) o),
            [TaskCancel (task_id k)])
  end.

(** [_reconnect], the coroutine with the randomized wait; [r] is the
    draw of [random()].  No call of it is left in the class.  It
    suspends once, at [await asyncio.sleep(reconnect_wait)], where the
    other tasks run, among them the one it has just asked to stop; what
    is modelled is the coroutine up to that point.  The result holds the
    time it then sleeps, after which it calls [_connect] on the object
    as the other tasks have left it, or [None] when the ceiling is
    reached and it returns.  [None] for the whole is the
    [AttributeError] of [cancel]. *)
Definition _reconnect (r : Q) (o : t)
  : option (t * list effect * option Z) :=
  match cancel o with
  | None => None
  | Some (o1, e1) =>
      let o2 := set_reconnects (_reconnects o1 + 1) o1 in
      if (_reconnects o2 <? MAX_RECONNECTS)%Z then
        let reconnect_wait := _get_reconnect_wait (_reconnects o2) r in
        Some (o2,
              e1 ++ [LogDebug "websocket {} reconnecting {} reconnects left"],
              Some reconnect_wait)
      else
        Some (o2, e1 ++ [LogError "Max reconnections {} reached:"], None)
  end.

(** [_reconnect_sync]. *)
Definition _reconnect_sync (o : t) : t * list effect :=
  let '(o1, e1) :=
    match _conn o with
    | Some k =>
        if negb (task_cancelled k)
        then (set_conn (Some (request_cancel k)) o, [TaskCancel (task_id k)])
        else (set_conn None o, [])
    | None => (o, [])
    end in
  let o2 := set_socket None o1 in
  let o3 := set_reconnects (_reconnects o2 + 1) o2 in
  if (_reconnects o3 <? MAX_RECONNECTS)%Z then
    let '(o4, e4) := _connect o3 in
    (o4, [LogDebug "cancelling ws connection and reconnecting"] ++ e1
         ++ [LogDebug "websocket {} reconnecting {} reconnects left";
             Sleep MIN_RECONNECT_WAIT] ++ e4)
  else
    (o3, [LogDebug "cancelling ws connection and reconnecting"] ++ e1
         ++ [LogError "Max reconnections {} reached:"]).

(** An exception reaching the outer [try] of [_run]. *)
Inductive raised : Type :=
| RaisedConnectionClosed
| RaisedException.

(** What the runtime delivers to the coroutine at an [await]: the outcome
    of [ws.connect], or of [wait_for(self._socket.recv(), TIMEOUT)]
    together with the outcome of the [ping()] that two branches await. *)
Inductive event : Type :=
| ConnectOk (sock : socket)
| ConnectRaised
| ConnectCancelled
| Recv (evt : string)
| TimeoutError (ping : option raised)
| CancelledError (ping : option raised)
| ConnectionClosed
| OtherException.

(** [send_ping]: the ping is sent only while [self._socket] is set. *)
Definition send_ping (ping : option raised) (o : t)
  : list effect * option raised :=
  match _socket o with
  | Some s => ([Ping s], ping)
  | None => ([], None)
  end.

(** The two [except] clauses of the outer [try]: log, [_reconnect_sync],
    and the coroutine leaves the [async with], closing its transport. *)
Definition handle_raised (sock : socket) (r : raised) (o : t)
  : t * list effect :=
  let msg := match r with
             | RaisedConnectionClosed => "ws connection closed:{}"
             | RaisedException => "ws exception:{}"
             end in
  let '(o', e) := _reconnect_sync (set_pc Returned o) in
  (o', [LogDebug msg] ++ e ++ [WsClose sock]).

(** Back at the loop head: [self._socket.recv()] is evaluated, which
    raises [AttributeError] when [cancel] has cleared [self._socket]. *)
Definition loop_head (sock : socket) (o : t) : t * list effect :=
  match _socket o with
  | Some _ => (o, [])
  | None => handle_raised sock RaisedException o
  end.

Definition then_do (e : list effect) (r : t * list effect)
  : t * list effect := (fst r, e ++ snd r).

Section Run.

(** [json.loads]. *)
Variable json_loads : string -> loaded.

(** One resumption of [_run]; [None] when the event is not one the
    coroutine can receive where it stands. *)
Definition step (o : t) (ev : event) : option (t * list effect) :=
  match run_pc o, ev with
  | Connecting, ConnectOk sock =>
      Some (set_pc (Receiving sock)
              (set_reconnects 0 (set_socket (Some sock) o)),
            [LogDebug "running ws";
             WsConnect (ws_url o)])
  | Connecting, ConnectRaised =>
      Some (set_pc Returned o,
            [LogDebug "running ws";
             WsConnect (ws_url o)])
  | Connecting, ConnectCancelled =>
      Some (set_pc Returned
              (set_conn
                 (option_map (fun k =>
                    {| task_id := task_id k;
                       cancel_requested := cancel_requested k;
                       task_cancelled := true |}) (_conn o)) o),
            [LogDebug "running ws";
             WsConnect (ws_url o)])
  | Receiving sock, Recv evt =>
      match json_loads evt with
      | RaisesValueError =>
          Some (then_do [LogDebug "error parsing evt json:{}"]
                  (loop_head sock o))
      | RaisesOther => Some (handle_raised sock RaisedException o)
      | Loaded evt_obj =>
          match _coro o with
          | Some h => Some (then_do [Dispatch h evt_obj] (loop_head sock o))
          | None => Some (handle_raised sock RaisedException o)
          end
      end
  | Receiving sock, TimeoutError ping =>
      let '(e, r) := send_ping ping o in
      match r with
      | None => Some (then_do ([LogDebug "no message in {} seconds"] ++ e)
                        (loop_head sock o))
      | Some x => Some (then_do ([LogDebug "no message in {} seconds"] ++ e)
                          (handle_raised sock x o))
      end
  | Receiving sock, CancelledError ping =>
      let '(e, r) := send_ping ping o in
      match r with
      | None => Some (then_do ([LogDebug "cancelled error"] ++ e)
                        (loop_head sock o))
      | Some x => Some (then_do ([LogDebug "cancelled error"] ++ e)
                          (handle_raised sock x o))
      end
  | Receiving sock, ConnectionClosed =>
      Some (handle_raised sock RaisedConnectionClosed o)
  | Receiving sock, OtherException =>
      Some (handle_raised sock RaisedException o)
  | _, _ => None
  end.

(** The object driven by a sequence of events; it stops at the first
    event that cannot be received. *)
Fixpoint run (evs : list event) (o : t) : t * list effect :=
  match evs with
  | [] => (o, [])
  | ev :: rest =>
      match step o ev with
      | None => (o, [])
      | Some (o', e) => then_do e (run rest o')
      end
  end.

End Run.

(** The handler calls and the waits among a list of effects. *)
Definition dispatched (es : list effect) : list (callback * json) :=
  flat_map (fun e => match e with Dispatch h v => [(h, v)] | _ => [] end) es.

Definition slept (es : list effect) : list Q :=
  flat_map (fun e => match e with Sleep q => [q] | _ => [] end) es.

Definition futures (es : list effect) : list nat :=
  flat_map (fun e => match e with EnsureFuture n => [n] | _ => [] end) es.

Definition pinged (es : list effect) : list socket :=
  flat_map (fun e => match e with Ping s => [s] | _ => [] end) es.

(** The invariant of [_reconnects] along a run of [_run]: it is 0 inside
    the loop and never passes 1. *)
Definition counter_reset (o : t) : Prop :=
  (0 <= _reconnects o <= 1)%Z
  /\ forall sock, run_pc o = Receiving sock -> _reconnects o = 0%Z.

End ReconnectingWebsocket.

(** ** An insertion-ordered [dict] with [str] keys *)

Module Dict.
Section Dict.
Context {V : Type}.

Definition dict : Type := list (string * V).

Definition keys (d : dict) : list string := map fst d.

Fixpoint get (k : string) (d : dict) : option V :=
  match d with
  | [] => None
  | (k', v) :: rest => if String.eqb k k' then Some v else get k rest
  end.

(** [k in d]. *)
Definition mem (k : string) (d : dict) : bool :=
  match get k d with Some _ => true | None => false end.

(** [d[k] = v]: in place when [k] is a key, at the end otherwise. *)
Fixpoint set (k : string) (v : V) (d : dict) : dict :=
  match d with
  | [] => [(k, v)]
  | (k', v') :: rest =>
      if String.eqb k k' then (k', v) :: rest else (k', v') :: set k v rest
  end.

(** [del d[k]]. *)
Fixpoint del (k : string) (d : dict) : dict :=
  match d with
  | [] => []
  | (k', v') :: rest =>
      if String.eqb k k' then rest else (k', v') :: del k rest
  end.

End Dict.
Arguments dict V : clear implicits.
End Dict.

(** ** class BinanceSocketManager *)

Module BinanceSocketManager.

Module RW := ReconnectingWebsocket.

Definition STREAM_URL : string := "wss://stream.binance.com:9443/".
Definition FSTREAM_URL : string := "wss://fstream.binance.com/".
Definition DSTREAM_URL : string := "wss://dstream.binance.com/".
Definition DEFAULT_USER_TIMEOUT : Z := 30 * 60.

(** The five keys of [_timers], [_listen_keys], [_account_callbacks] and
    [socket_type_url_mapping], in the order the dicts are written. *)
Inductive socket_type : Type := user | margin | isolated | perp | delivery.

Definition socket_types : list socket_type :=
  [user; margin; isolated; perp; delivery].

Definition socket_type_eqb (a b : socket_type) : bool :=
  match a, b with
  | user, user | margin, margin | isolated, isolated
  | perp, perp | delivery, delivery => true
  | _, _ => false
  end.

(** A dict over exactly these five keys. *)
Record per_type (A : Type) : Type := {
  of_user : A;
  of_margin : A;
  of_isolated : A;
  of_perp : A;
  of_delivery : A
}.
Arguments of_user {A}.
Arguments of_margin {A}.
Arguments of_isolated {A}.
Arguments of_perp {A}.
Arguments of_delivery {A}.

Definition lookup {A} (ty : socket_type) (d : per_type A) : A :=
  match ty with
  | user => of_user d
  | margin => of_margin d
  | isolated => of_isolated d
  | perp => of_perp d
  | delivery => of_delivery d
  end.

Definition update {A} (ty : socket_type) (v : A) (d : per_type A)
  : per_type A :=
  match ty with
  | user => {| of_user := v; of_margin := of_margin d;
               of_isolated := of_isolated d; of_perp := of_perp d;
               of_delivery := of_delivery d |}
  | margin => {| of_user := of_user d; of_margin := v;
                 of_isolated := of_isolated d; of_perp := of_perp d;
                 of_delivery := of_delivery d |}
  | isolated => {| of_user := of_user d; of_margin := of_margin d;
                   of_isolated := v; of_perp := of_perp d;
                   of_delivery := of_delivery d |}
  | perp => {| of_user := of_user d; of_margin := of_margin d;
               of_isolated := of_isolated d; of_perp := v;
               of_delivery := of_delivery d |}
  | delivery => {| of_user := of_user d; of_margin := of_margin d;
                   of_isolated := of_isolated d; of_perp := of_perp d;
                   of_delivery := v |}
  end.

Definition all_none {A} : per_type (option A) :=
  {| of_user := None; of_margin := None; of_isolated := None;
     of_perp := None; of_delivery := None |}.

Definition socket_type_url_mapping (ty : socket_type) : string :=
  match ty with
  | user => STREAM_URL
  | margin => STREAM_URL
  | isolated => STREAM_URL
  | perp => FSTREAM_URL
  | delivery => DSTREAM_URL
  end.

(** The methods of [self._client] that the manager calls per type. *)
Definition get_listen_key_method (ty : socket_type) : string :=
  match ty with
  | user => "stream_get_listen_key"
  | margin => "margin_stream_get_listen_key"
  | isolated => "isolated_stream_get_listen_key"
  | perp => "future_stream_get_listen_key"
  | delivery => "tfuture_stream_get_listen_key"
  end.

Definition stream_close_method (ty : socket_type) : string :=
  match ty with
  | user => "stream_close"
  | margin => "margin_stream_close"
  | isolated => "isolated_stream_close"
  | perp => "future_stream_close"
  | delivery => "tfuture_stream_close"
  end.

(** What the manager does to the outside, in program order. *)
Inductive effect : Type :=
| Construct (path : string)
| Cancel (path : string)
| ClientCall (method : string) (listenKey : option string)
| CallLater (delay : Z) (ty : socket_type) (handle : nat)
| TimerCancel (handle : nat).

Record t : Type := {
  _conns : Dict.dict RW.t;
  _user_timeout : Z;
  _timers : per_type (option nat);
  _listen_keys : per_type (option string);
  _account_callbacks : per_type (option callback);
  next_handle : nat;
  trace : list effect
}.

(** [__init__]. *)
Definition new (user_timeout : Z) : t :=
  {| _conns := []; _user_timeout := user_timeout; _timers := all_none;
     _listen_keys := all_none; _account_callbacks := all_none;
     next_handle := 0; trace := [] |}.

Definition set_conns (v : Dict.dict RW.t) (m : t) : t :=
  {| _conns := v; _user_timeout := _user_timeout m; _timers := _timers m;
     _listen_keys := _listen_keys m;
     _account_callbacks := _account_callbacks m;
     next_handle := next_handle m; trace := trace m |}.

Definition set_timers (v : per_type (option nat)) (m : t) : t :=
  {| _conns := _conns m; _user_timeout := _user_timeout m; _timers := v;
     _listen_keys := _listen_keys m;
     _account_callbacks := _account_callbacks m;
     next_handle := next_handle m; trace := trace m |}.

Definition set_listen_keys (v : per_type (option string)) (m : t) : t :=
  {| _conns := _conns m; _user_timeout := _user_timeout m;
     _timers := _timers m; _listen_keys := v;
     _account_callbacks := _account_callbacks m;
     next_handle := next_handle m; trace := trace m |}.

Definition set_account_callbacks (v : per_type (option callback)) (m : t)
  : t :=
  {| _conns := _conns m; _user_timeout := _user_timeout m;
     _timers := _timers m; _listen_keys := _listen_keys m;
     _account_callbacks := v;
     next_handle := next_handle m; trace := trace m |}.

Definition set_next_handle (v : nat) (m : t) : t :=
  {| _conns := _conns m; _user_timeout := _user_timeout m;
     _timers := _timers m; _listen_keys := _listen_keys m;
     _account_callbacks := _account_callbacks m;
     next_handle := v; trace := trace m |}.

Definition emit (e : effect) (m : t) : t :=
  {| _conns := _conns m; _user_timeout := _user_timeout m;
     _timers := _timers m; _listen_keys := _listen_keys m;
     _account_callbacks := _account_callbacks m;
     next_handle := next_handle m; trace := trace m ++ [e] |}.

(** *** Coroutines of the manager: state and exceptions *)

Inductive exn : Type := AttributeError.

Inductive res (A : Type) : Type :=
| Ok (a : A) (m : t)
| Raise (e : exn) (m : t).
Arguments Ok {A}.
Arguments Raise {A}.

Definition M (A : Type) : Type := t -> res A.

Definition ret {A} (a : A) : M A := fun m => Ok a m.

Definition bind {A B} (c : M A) (k : A -> M B) : M B :=
  fun m => match c m with
           | Ok a m' => k a m'
           | Raise e m' => Raise e m'
           end.

Definition gets {A} (f : t -> A) : M A := fun m => Ok (f m) m.
Definition modify (f : t -> t) : M unit := fun m => Ok tt (f m).

Notation "x <- c ;; k" := (bind c (fun x => k))
  (at level 61, c at next level, right associativity).
Notation "c ;; k" := (bind c (fun _ => k))
  (at level 61, right associativity).

(** The state a call ends in, whether it returns or raises. *)
Definition final {A} (r : res A) : t :=
  match r with Ok _ m => m | Raise _ m => m end.

(** What a start method returns: [False] or the connection key. *)
Inductive started : Type :=
| PyFalse
| ConnKey (path : string).

Definition started_truthy (r : started) : bool :=
  match r with PyFalse => false | ConnKey p => str_truthy p end.

(** [_start_socket]. *)
Definition _start_socket (path : string) (coro : option callback)
    (prefix : string) (ty : socket_type) : M started :=
  conns <- gets _conns ;;
  if Dict.mem path conns then ret PyFalse
  else
    modify (fun m =>
      emit (Construct path)
        (set_conns
           (Dict.set path
              (fst (RW.new (socket_type_url_mapping ty) path coro prefix))
              (_conns m)) m)) ;;
    ret (ConnKey path).

(** [str.lower()] on ASCII text. *)
Definition lower_ascii (c : ascii) : ascii :=
  let n := nat_of_ascii c in
  if ((65 <=? n) && (n <=? 90))%nat then ascii_of_nat (n + 32) else c.

Fixpoint lower (s : string) : string :=
  match s with
  | EmptyString => EmptyString
  | String c rest => String (lower_ascii c) (lower rest)
  end.

(** ['{}'.format(n)] for an [int]. *)
Definition str_of_int (n : Z) : string :=
  NilZero.string_of_int (Z.to_int n).

(** [start_depth_socket]. *)
Definition start_depth_socket (symbol : string) (coro : option callback)
    (depth update_time_ms : Z) : M started :=
  let path := (lower symbol ++ "@depth")%string in
  let path :=
    if (update_time_ms =? 1000)%Z
    then (path ++ str_of_int depth)%string
    else (path ++ str_of_int depth ++ "@" ++ str_of_int update_time_ms
            ++ "ms")%string in
  _start_socket path coro "ws/" user ;;
  ret (ConnKey path).

(** [start_kline_socket]. *)
Definition start_kline_socket (symbol : string) (coro : option callback)
    (interval : string) : M started :=
  let path := (lower symbol ++ "@kline_" ++ interval)%string in
  _start_socket path coro "ws/" user ;;
  ret (ConnKey path).

(** [start_trade_socket]. *)
Definition start_trade_socket (symbol : string) (coro : option callback)
  : M started :=
  let path := (lower symbol ++ "@trade")%string in
  _start_socket path coro "ws/" user ;;
  ret (ConnKey path).

(** [start_arbitrary_socket]. *)
Definition start_arbitrary_socket (ws_domain path : string)
    (coro : option callback) (prefix : string) : M started :=
  conns <- gets _conns ;;
  if Dict.mem path conns then ret PyFalse
  else
    modify (fun m =>
      emit (Construct path)
        (set_conns
           (Dict.set path (fst (RW.new ws_domain path coro prefix))
              (_conns m)) m)) ;;
    ret (ConnKey path).

(** [_start_socket_timer]. *)
Definition _start_socket_timer (ty : socket_type) : M unit :=
  modify (fun m =>
    let h := next_handle m in
    emit (CallLater (_user_timeout m) ty h)
      (set_next_handle (S h)
         (set_timers (update ty (Some h) (_timers m)) m))).

(** [_stop_account_socket]. *)
Definition _stop_account_socket (ty : socket_type) : M unit :=
  lk <- gets (fun m => lookup ty (_listen_keys m)) ;;
  if negb (opt_truthy lk) then ret tt
  else
    timer <- gets (fun m => lookup ty (_timers m)) ;;
    match timer with
    | Some h =>
        modify (fun m =>
          set_timers (update ty None (_timers m)) (emit (TimerCancel h) m))
    | None => ret tt
    end ;;
    modify (emit (ClientCall (stream_close_method ty) lk)) ;;
    modify (fun m =>
      set_listen_keys (update ty None (_listen_keys m)) m).

(** The test written in [stop_socket] and in
    [_check_account_socket_open]:
    [len(conn_key) >= 60 and conn_key[:60] == listen_key]. *)
Definition has_listen_key (conn_key listen_key : string) : bool :=
  (60 <=? String.length conn_key)%nat
  && String.eqb (substring 0 60 conn_key) listen_key.

(** The [for key in self._listen_keys] loop of [stop_socket]. *)
Fixpoint stop_socket_loop (conn_key : string) (tys : list socket_type)
  : M unit :=
  match tys with
  | [] => ret tt
  | key :: rest =>
      lk <- gets (fun m => lookup key (_listen_keys m)) ;;
      match lk with
      | Some k =>
          if str_truthy k && has_listen_key conn_key k
          then _stop_account_socket key
          else ret tt
      | None => ret tt
      end ;;
      stop_socket_loop conn_key rest
  end.

(** [stop_socket]. *)
Definition stop_socket (conn_key : string) : M unit :=
  conns <- gets _conns ;;
  match Dict.get conn_key conns with
  | None => ret tt
  | Some c =>
      match RW.cancel c with
      | None => fun m => Raise AttributeError m
      | Some (c', _) =>
          modify (fun m =>
            emit (Cancel conn_key)
              (set_conns (Dict.del conn_key (_conns m)) m)) ;;
          stop_socket_loop conn_key socket_types
      end
  end.

(** The [for conn_key in self._conns] loop of
    [_check_account_socket_open], which leaves at the first match. *)
Fixpoint check_loop (listen_key : string) (conn_keys : list string)
  : M unit :=
  match conn_keys with
  | [] => ret tt
  | conn_key :: rest =>
      if has_listen_key conn_key listen_key
      then stop_socket conn_key
      else check_loop listen_key rest
  end.

(** [_check_account_socket_open]. *)
Definition _check_account_socket_open (listen_key : string) : M unit :=
  if negb (str_truthy listen_key) then ret tt
  else
    conns <- gets _conns ;;
    check_loop listen_key (Dict.keys conns).

(** [_start_account_socket]. *)
Definition _start_account_socket (ty : socket_type) (listen_key : string)
    (cb : option callback) : M started :=
  _check_account_socket_open listen_key ;;
  modify (fun m =>
    set_listen_keys (update ty (Some listen_key) (_listen_keys m)) m) ;;
  modify (fun m =>
    set_account_callbacks (update ty cb (_account_callbacks m)) m) ;;
  conn_key <- _start_socket listen_key cb "ws/" ty ;;
  (if started_truthy conn_key then _start_socket_timer ty else ret tt) ;;
  ret conn_key.

(** [start_user_socket]; [user_listen_key] is the reply of
    [stream_get_listen_key]. *)
Definition start_user_socket (coro : option callback)
    (user_listen_key : string) : M started :=
  modify (emit (ClientCall (get_listen_key_method user) None)) ;;
  _start_account_socket user user_listen_key coro.

(** The coroutine [_run] of [_keepalive_account_socket], fired by the
    timer; [listen_key] is the reply of the client. *)
Definition _keepalive_account_socket (ty : socket_type)
    (listen_key : string) : M unit :=
  modify (emit (ClientCall (get_listen_key_method ty) None)) ;;
  cb <- gets (fun m => lookup ty (_account_callbacks m)) ;;
  old <- gets (fun m => lookup ty (_listen_keys m)) ;;
  match old with
  | Some k =>
      if String.eqb listen_key k then _start_socket_timer ty
      else _start_account_socket ty listen_key cb ;; ret tt
  | None => _start_account_socket ty listen_key cb ;; ret tt
  end.

(** [start_miniticker_socket]. *)
Definition start_miniticker_socket (coro : option callback)
    (update_time : Z) : M started :=
  let path := ("!miniTicker@arr@" ++ str_of_int update_time ++ "ms")%string in
  _start_socket path coro "ws/" user ;;
  ret (ConnKey path).

(** [start_aggtrade_socket]. *)
Definition start_aggtrade_socket (symbol : string) (coro : option callback)
  : M started :=
  let path := (lower symbol ++ "@aggTrade")%string in
  _start_socket path coro "ws/" user ;;
  ret (ConnKey path).

(** [start_symbol_ticker_socket]. *)
Definition start_symbol_ticker_socket (symbol : string)
    (coro : option callback) : M started :=
  let path := (lower symbol ++ "@ticker")%string in
  _start_socket path coro "ws/" user ;;
  ret (ConnKey path).

(** [start_ticker_socket]. *)
Definition start_ticker_socket (coro : option callback) : M started :=
  let path := "!ticker@arr" in
  _start_socket path coro "ws/" user ;;
  ret (ConnKey path).

(** [start_allticker_futures_socket]. *)
Definition start_allticker_futures_socket (coro : option callback)
  : M started :=
  let path := "!bookTicker" in
  _start_socket path coro "ws/" perp ;;
  ret (ConnKey path).

(** [start_symbol_ticker_futures_socket]. *)
Definition start_symbol_ticker_futures_socket (symbol : string)
    (coro : option callback) : M started :=
  let path := (lower symbol ++ "@bookTicker")%string in
  _start_socket path coro "ws/" perp ;;
  ret (ConnKey path).

(** [start_symbol_book_ticker_socket]. *)
Definition start_symbol_book_ticker_socket (symbol : string)
    (coro : option callback) : M started :=
  let path := (lower symbol ++ "@bookTicker")%string in
  _start_socket path coro "ws/" user ;;
  ret (ConnKey path).

(** [start_book_ticker_socket]. *)
Definition start_book_ticker_socket (coro : option callback) : M started :=
  let path := "!bookTicker" in
  _start_socket path coro "ws/" user ;;
  ret (ConnKey path).

(** [start_multiplex_socket]. *)
Definition start_multiplex_socket (streams : list string)
    (coro : option callback) : M started :=
  let path := ("streams=" ++ String.concat "/" streams)%string in
  _start_socket path coro "stream?" user ;;
  ret (ConnKey path).

(** [start_margin_socket], [start_isolated_socket], [start_future_socket]
    and [start_tfuture_socket]; the listen key is the reply of the
    client. *)
Definition start_margin_socket (cb : option callback)
    (margin_listen_key : string) : M started :=
  modify (emit (ClientCall (get_listen_key_method margin) None)) ;;
  _start_account_socket margin margin_listen_key cb.

Definition start_isolated_socket (cb : option callback)
    (isolated_listen_key : string) : M started :=
  modify (emit (ClientCall (get_listen_key_method isolated) None)) ;;
  _start_account_socket isolated isolated_listen_key cb.

Definition start_future_socket (cb : option callback)
    (future_listen_key : string) : M started :=
  modify (emit (ClientCall (get_listen_key_method perp) None)) ;;
  _start_account_socket perp future_listen_key cb.

Definition start_tfuture_socket (cb : option callback)
    (tfuture_listen_key : string) : M started :=
  modify (emit (ClientCall (get_listen_key_method delivery) None)) ;;
  _start_account_socket delivery tfuture_listen_key cb.

(** The start method of the account socket of a type. *)
Definition start_account_socket_of (ty : socket_type)
  : option callback -> string -> M started :=
  match ty with
  | user => start_user_socket
  | margin => start_margin_socket
  | isolated => start_isolated_socket
  | perp => start_future_socket
  | delivery => start_tfuture_socket
  end.

(** The [for key in keys] loop of [close]. *)
Fixpoint close_loop (keys : list string) : M unit :=
  match keys with
  | [] => ret tt
  | key :: rest => stop_socket key ;; close_loop rest
  end.

(** [close].  [keys] is [set(self._conns.keys())] in the order in which
    the set is iterated, which Python leaves open. *)
Definition close (keys : list string) : M unit :=
  close_loop keys ;;
  modify (set_conns []).

(** A coroutine keeps [P] when [P] holds of the state it ends in, by
    return or by exception, whenever it holds of the state it starts in. *)
Definition keeps {A} (P : t -> Prop) (c : M A) : Prop :=
  forall m, P m -> P (final (c m)).

(** The keys of the registry are pairwise different. *)
Definition unique_keys (m : t) : Prop := NoDup (Dict.keys (_conns m)).

(** Every registered object holds a task. *)
Definition tasks_held (m : t) : Prop :=
  forall k c, Dict.get k (_conns m) = Some c -> RW._conn c <> None.

(** The registry as [__init__] and the methods of the manager build it. *)
Definition sound (m : t) : Prop := unique_keys m /\ tasks_held m.

(** A coroutine that, from a sound registry, returns and leaves the
    registry sound. *)
Definition safe {A} (c : M A) : Prop :=
  forall m, sound m -> exists a m', c m = Ok a m' /\ sound m'.

(** A start method that returns [path] in every state, with [path]
    registered afterwards, and that changes nothing when [path] was
    registered before. *)
Definition returns_key (c : M started) (path : string) : Prop :=
  forall m, exists m',
    c m = Ok (ConnKey path) m'
    /\ Dict.mem path (_conns m') = true
    /\ (Dict.mem path (_conns m) = true -> m' = m).

(** Whether the key stopped carries the listen key recorded for a
    type, as the loop of [stop_socket] tests it. *)
Definition carries_session (conn_key : string) (ty : socket_type) (m : t)
  : bool :=
  match lookup ty (_listen_keys m) with
  | Some k => str_truthy k && has_listen_key conn_key k
  | None => false
  end.

End BinanceSocketManager.

(** ** Concrete values used by the examples *)

Module Samples.
Import ReconnectingWebsocket.

(** The number of [[] that open a text. *)
Fixpoint leading_brackets (s : string) : nat :=
  match s with
  | String "["%char rest => S (leading_brackets rest)
  | _ => 0
  end.

(** A decoder of the JSON literals and of the two empty containers.  On
    any other text it raises [ValueError], unless the text opens a
    thousand lists or more, which it does not follow: there it raises
    an exception that is no [ValueError], as [json.loads] raises
    [RecursionError]. *)
Definition json_loads_literals (s : string) : loaded :=
  if String.eqb s "null" then Loaded JNull
  else if String.eqb s "true" then Loaded (JBool true)
  else if String.eqb s "false" then Loaded (JBool false)
  else if String.eqb s "[]" then Loaded (JList [])
  else if String.eqb s "{}" then Loaded (JDict [])
  else if (1000 <=? leading_brackets s)%nat then RaisesOther
  else RaisesValueError.

(** The frame ['[' * n]. *)
Fixpoint brackets (n : nat) : string :=
  match n with
  | O => EmptyString
  | S n' => String "["%char (brackets n')
  end.

(** A trade stream after its first successful [ws.connect]. *)
Definition open_trade_stream : t :=
  {| ws_domain := "wss://stream.binance.com:9443/";
     _path := "btcusdt@trade"; _prefix := "ws/"; _coro := Some 0%nat;
     _reconnects := 0;
     _conn := Some {| task_id := 0; cancel_requested := false;
                      task_cancelled := false |};
     _socket := Some 7%nat; run_pc := Receiving 7%nat; spawned := 1 |}.

(** A manager whose registry holds that stream, open. *)
Definition trade_open : BinanceSocketManager.t :=
  BinanceSocketManager.set_conns [("btcusdt@trade", open_trade_stream)]
    (BinanceSocketManager.new BinanceSocketManager.DEFAULT_USER_TIMEOUT).

(** Two listen keys of 60 characters. *)
Definition listen_key_A : string :=
  "AAAAAAAAAAAAAAAAAAAAAAAAAAAAAAAAAAAAAAAAAAAAAAAAAAAAAAAAAAAA".
Definition listen_key_B : string :=
  "BBBBBBBBBBBBBBBBBBBBBBBBBBBBBBBBBBBBBBBBBBBBBBBBBBBBBBBBBBBB".

(** A listen key of 64 characters. *)
Definition listen_key_64 : string :=
  "pqia91ma19a5s61cv6a81va65sdf19v8a65a1a5s61cv6a81va65sdf19v8a65a1".

(** A stream of the public endpoint, as [_start_socket] constructs it. *)
Definition stream (path : string) : t :=
  fst (new BinanceSocketManager.STREAM_URL path (Some 0%nat) "ws/").

(** A registry of three streams, two of which carry [listen_key_A]. *)
Definition three_streams : BinanceSocketManager.t :=
  BinanceSocketManager.set_conns
    [("btcusdt@trade", stream "btcusdt@trade");
     ((listen_key_A ++ "@x")%string, stream (listen_key_A ++ "@x"));
     ((listen_key_A ++ "@y")%string, stream (listen_key_A ++ "@y"))]
    (BinanceSocketManager.new BinanceSocketManager.DEFAULT_USER_TIMEOUT).

(** A manager whose user socket runs under [listen_key_A], beside a
    trade stream. *)
Definition user_session : BinanceSocketManager.t :=
  BinanceSocketManager.final
    (BinanceSocketManager.start_user_socket (Some 1%nat) listen_key_A
       (BinanceSocketManager.final
          (BinanceSocketManager.start_trade_socket "BTCUSDT" (Some 0%nat)
             (BinanceSocketManager.new
                BinanceSocketManager.DEFAULT_USER_TIMEOUT)))).

End Samples.

(** ** Rounding *)

Lemma py_round_between (a b : Z) (x : Q) :
  inject_Z a <= x -> x <= inject_Z b -> (a <= py_round x <= b)%Z.
Proof.
  intros Ha Hb.
  assert (Hfa : (a <= Qfloor x)%Z).
  { rewrite <- (Qfloor_Z a). now apply Qfloor_resp_le. }
  assert (Hfb : (Qfloor x <= b)%Z).
  { rewrite <- (Qfloor_Z b). now apply Qfloor_resp_le. }
  assert (Hup : (Qfloor x = b -> x - inject_Z (Qfloor x) < 1 # 2)).
  { intros E. rewrite E.
    apply Qle_lt_trans with (y := 0); [|reflexivity].
    apply (Qplus_le_l _ _ (inject_Z b)). ring_simplify. exact Hb. }
  unfold py_round.
  destruct (Qcompare (x - inject_Z (Qfloor x)) (1 # 2)) eqn:E.
  - destruct (Z.eq_dec (Qfloor x) b) as [Eb|Nb].
    + apply Hup in Eb. apply Qeq_alt in E. rewrite E in Eb.
      discriminate Eb.
    + destruct (Z.even (Qfloor x)); lia.
  - lia.
  - destruct (Z.eq_dec (Qfloor x) b) as [Eb|Nb].
    + apply Hup in Eb. apply Qgt_alt in E.
      exfalso. apply (Qlt_irrefl (1 # 2)).
      now apply Qlt_trans with (y := x - inject_Z (Qfloor x)).
    + lia.
Qed.

(** ** The reconnect wait *)

Module BackoffFacts.
Import ReconnectingWebsocket.

Lemma cap_is_0_or_1 (n : Z) :
  (0 <= n)%Z ->
  let m := Z.min MAX_RECONNECT_SECONDS (2 ^ n - 1) in (m = 0 \/ m = 1)%Z.
Proof.
  intros Hn m. unfold m, MAX_RECONNECT_SECONDS.
  assert (0 < 2 ^ n)%Z by (apply Z.pow_pos_nonneg; lia). lia.
Qed.

Lemma scaled_draw_range (n : Z) (r : Q) :
  (0 <= n)%Z -> 0 <= r -> r <= 1 ->
  let m := Z.min MAX_RECONNECT_SECONDS (2 ^ n - 1) in
  inject_Z 1 <= r * inject_Z m + 1 /\ r * inject_Z m + 1 <= inject_Z (1 + m).
Proof.
  intros Hn Hr0 Hr1 m.
  destruct (cap_is_0_or_1 n Hn) as [E|E]; fold m in E; rewrite E.
  - setoid_replace (r * inject_Z 0) with 0 by ring. split; discriminate.
  - setoid_replace (r * inject_Z 1 + 1) with (r + 1) by ring. split.
    + setoid_replace (inject_Z 1) with (0 + 1) by reflexivity.
      now apply Qplus_le_l.
    + setoid_replace (inject_Z (1 + 1)) with (1 + 1) by reflexivity.
      now apply Qplus_le_l.
Qed.

(** C5: for every attempt count [n >= 0] and every draw [r] in [0,1] the
    reconnect wait lies in [1, 1 + min(MAX_RECONNECT_SECONDS, 2^n - 1)]. *)
Theorem get_reconnect_wait_bounds (n : Z) (r : Q) :
  (0 <= n)%Z -> 0 <= r -> r <= 1 ->
  (1 <= _get_reconnect_wait n r
     <= 1 + Z.min MAX_RECONNECT_SECONDS (2 ^ n - 1))%Z.
Proof.
  intros Hn Hr0 Hr1. unfold _get_reconnect_wait.
  destruct (scaled_draw_range n r Hn Hr0 Hr1) as [Hlo Hhi].
  now apply py_round_between.
Qed.

Lemma get_reconnect_wait_bounds_witness :
  (1 <= _get_reconnect_wait 3 (7 # 10)
     <= 1 + Z.min MAX_RECONNECT_SECONDS (2 ^ 3 - 1))%Z.
Proof.
  apply (get_reconnect_wait_bounds 3 (7 # 10)).
  - lia.
  - discriminate.
  - discriminate.
Defined.

(** The bounds of C5 do not depend on the arithmetic being exact: they
    hold for every rounding to floats that is monotone and exact on 0, 1
    and 2. *)
Lemma get_reconnect_wait_fl_bounds (fl : Q -> Q) (n : Z) (r : Q) :
  (forall x y, x <= y -> fl x <= fl y) ->
  fl 0 == 0 -> fl 1 == 1 -> fl (1 + 1) == 1 + 1 ->
  (0 <= n)%Z -> 0 <= r -> r <= 1 ->
  (1 <= _get_reconnect_wait_fl fl n r
     <= 1 + Z.min MAX_RECONNECT_SECONDS (2 ^ n - 1))%Z.
Proof.
  intros Hmono H0 H1 H2 Hn Hr0 Hr1. unfold _get_reconnect_wait_fl.
  set (m := Z.min MAX_RECONNECT_SECONDS (2 ^ n - 1)).
  assert (Hm : fl (inject_Z m) == inject_Z m
               /\ fl (inject_Z m + 1) == inject_Z m + 1
               /\ 0 <= r * inject_Z m /\ r * inject_Z m <= inject_Z m).
  { destruct (cap_is_0_or_1 n Hn) as [E|E]; fold m in E; rewrite E.
    - split; [exact H0|]. split; [exact H1|].
      setoid_replace (r * inject_Z 0) with 0 by ring. split; discriminate.
    - split; [exact H1|]. split; [exact H2|].
      setoid_replace (r * inject_Z 1) with r by ring. auto. }
  destruct Hm as (Em & Em1 & Hx0 & Hx1).
  assert (Heq_le : forall x y : Q, x == y -> x <= y).
  { intros x y E. apply Qle_lteq. now right. }
  assert (Hlo : 0 <= fl (r * inject_Z m)).
  { apply Qle_trans with (y := fl 0).
    - apply Heq_le. symmetry. exact H0.
    - now apply Hmono. }
  assert (Hhi : fl (r * inject_Z m) <= inject_Z m).
  { apply Qle_trans with (y := fl (inject_Z m)).
    - now apply Hmono.
    - apply Heq_le. exact Em. }
  apply py_round_between.
  - apply Qle_trans with (y := fl 1).
    + apply Heq_le. symmetry. exact H1.
    + apply Hmono.
      apply Qle_trans with (y := 0 + 1); [discriminate|].
      now apply Qplus_le_l.
  - apply Qle_trans with (y := fl (inject_Z m + 1)).
    + apply Hmono. now apply Qplus_le_l.
    + apply Qle_trans with (y := inject_Z m + 1).
      * apply Heq_le. exact Em1.
      * apply Heq_le. rewrite inject_Z_plus. apply Qplus_comm.
Qed.

(** The wait is never as short as [MIN_RECONNECT_WAIT]. *)
Lemma get_reconnect_wait_above_min (n : Z) (r : Q) :
  (0 <= n)%Z -> 0 <= r -> r <= 1 ->
  ~ MIN_RECONNECT_WAIT == inject_Z (_get_reconnect_wait n r).
Proof.
  intros Hn Hr0 Hr1 E. unfold _get_reconnect_wait in E.
  destruct (scaled_draw_range n r Hn Hr0 Hr1) as [Hlo Hhi].
  destruct (py_round_between _ _ _ Hlo Hhi) as [H1 _].
  rewrite Zle_Qle in H1. rewrite <- E in H1. now apply H1.
Qed.

End BackoffFacts.

(** ** The receive loop and the reconnection *)

Module RunFacts.
Import ReconnectingWebsocket.

Lemma reconnect_sync_reconnects (o : t) :
  _reconnects (fst (_reconnect_sync o)) = (_reconnects o + 1)%Z.
Proof.
  unfold _reconnect_sync.
  destruct (_conn o) as [k|]; [destruct (task_cancelled k)|]; simpl;
    destruct (_ <? _)%Z; reflexivity.
Qed.

Lemma reconnect_sync_below_ceiling (o : t) :
  (_reconnects o + 1 < MAX_RECONNECTS)%Z ->
  exists pre,
    snd (_reconnect_sync o)
      = pre ++ [Sleep MIN_RECONNECT_WAIT; EnsureFuture (spawned o)]
    /\ slept pre = [] /\ futures pre = []
    /\ run_pc (fst (_reconnect_sync o)) = Connecting
    /\ spawned (fst (_reconnect_sync o)) = S (spawned o).
Proof.
  intros H. apply Z.ltb_lt in H. unfold _reconnect_sync.
  destruct (_conn o) as [k|]; [destruct (task_cancelled k)|]; simpl;
    rewrite H; simpl.
  - exists [LogDebug "cancelling ws connection and reconnecting";
            LogDebug "websocket {} reconnecting {} reconnects left"].
    repeat split.
  - exists [LogDebug "cancelling ws connection and reconnecting";
            TaskCancel (task_id k);
            LogDebug "websocket {} reconnecting {} reconnects left"].
    repeat split.
  - exists [LogDebug "cancelling ws connection and reconnecting";
            LogDebug "websocket {} reconnecting {} reconnects left"].
    repeat split.
Qed.

Lemma reconnect_sync_at_ceiling (o : t) :
  (MAX_RECONNECTS <= _reconnects o + 1)%Z ->
  futures (snd (_reconnect_sync o)) = []
  /\ slept (snd (_reconnect_sync o)) = []
  /\ run_pc (fst (_reconnect_sync o)) = run_pc o
  /\ spawned (fst (_reconnect_sync o)) = spawned o.
Proof.
  intros H. apply Z.ltb_ge in H. unfold _reconnect_sync.
  destruct (_conn o) as [k|]; [destruct (task_cancelled k)|]; simpl;
    rewrite H; simpl; repeat split.
Qed.

Lemma reconnect_sync_dispatched (o : t) :
  dispatched (snd (_reconnect_sync o)) = [].
Proof.
  unfold _reconnect_sync.
  destruct (_conn o) as [k|]; [destruct (task_cancelled k)|]; simpl;
    destruct (_ <? _)%Z; reflexivity.
Qed.

Lemma handle_raised_fst (sock : socket) (r : raised) (o : t) :
  fst (handle_raised sock r o) = fst (_reconnect_sync (set_pc Returned o)).
Proof.
  unfold handle_raised. destruct (_reconnect_sync _). reflexivity.
Qed.

Lemma handle_raised_snd (sock : socket) (r : raised) (o : t) :
  exists msg,
    snd (handle_raised sock r o)
      = [LogDebug msg] ++ snd (_reconnect_sync (set_pc Returned o))
          ++ [WsClose sock].
Proof.
  unfold handle_raised. destruct (_reconnect_sync _). simpl.
  eexists. reflexivity.
Qed.

Lemma futures_app (a b : list effect) :
  futures (a ++ b) = futures a ++ futures b.
Proof. unfold futures. apply flat_map_app. Qed.

Lemma slept_app (a b : list effect) : slept (a ++ b) = slept a ++ slept b.
Proof. unfold slept. apply flat_map_app. Qed.

Lemma dispatched_app (a b : list effect) :
  dispatched (a ++ b) = dispatched a ++ dispatched b.
Proof. unfold dispatched. apply flat_map_app. Qed.

Section Loop.

Variable json_loads : string -> loaded.

Lemma step_failure (o : t) (sock : socket) (ev : event) :
  run_pc o = Receiving sock ->
  ev = ConnectionClosed \/ ev = OtherException ->
  exists r, step json_loads o ev = Some (handle_raised sock r o).
Proof.
  intros Hpc [-> | ->]; unfold step; rewrite Hpc; eexists; reflexivity.
Qed.

Lemma returned_is_inert (o : t) :
  run_pc o = Returned ->
  (forall ev, step json_loads o ev = None)
  /\ forall evs, run json_loads evs o = (o, []).
Proof.
  intros E.
  assert (H : forall ev, step json_loads o ev = None).
  { intros ev. unfold step. rewrite E. reflexivity. }
  split; [exact H|].
  intros [|ev evs]; simpl; [reflexivity|]. now rewrite H.
Qed.

(** C4, as the code has it: after a failure of the transport that leaves
    [_reconnects] below [MAX_RECONNECTS], the loop sleeps exactly
    [MIN_RECONNECT_WAIT], whatever the count, and then schedules the
    task that reopens the transport. *)
Theorem transport_failure_waits_min_reconnect_wait (o : t) (sock : socket)
    (ev : event) :
  run_pc o = Receiving sock ->
  ev = ConnectionClosed \/ ev = OtherException ->
  (_reconnects o + 1 < MAX_RECONNECTS)%Z ->
  exists o' pre,
    step json_loads o ev
      = Some (o', pre ++ [Sleep MIN_RECONNECT_WAIT;
                          EnsureFuture (spawned o); WsClose sock])
    /\ slept pre = [] /\ futures pre = []
    /\ _reconnects o' = (_reconnects o + 1)%Z
    /\ run_pc o' = Connecting.
Proof.
  intros Hpc Hev Hlt.
  destruct (step_failure o sock ev Hpc Hev) as [r Hstep].
  destruct (handle_raised_snd sock r o) as [msg Hes].
  destruct (reconnect_sync_below_ceiling (set_pc Returned o) Hlt)
    as (pre & Hpre & Hsl & Hfu & Hp & _).
  exists (fst (handle_raised sock r o)), ([LogDebug msg] ++ pre).
  split.
  - rewrite Hstep. f_equal.
    rewrite (surjective_pairing (handle_raised sock r o)) at 1.
    f_equal. rewrite Hes, Hpre. simpl. rewrite <- app_assoc. reflexivity.
  - rewrite slept_app, futures_app, Hsl, Hfu, handle_raised_fst.
    repeat split; [rewrite reconnect_sync_reconnects; reflexivity | exact Hp].
Qed.

(** C8, as the code has it: a frame on which [json.loads] raises
    [ValueError] is logged and dropped; the handler is not called, the
    object is left as it was and the loop awaits the next frame. *)
Theorem undecodable_frame_is_discarded (o : t) (sock s : socket)
    (evt : string) :
  run_pc o = Receiving sock ->
  _socket o = Some s ->
  json_loads evt = RaisesValueError ->
  exists es,
    step json_loads o (Recv evt) = Some (o, es)
    /\ dispatched es = []
    /\ es = [LogDebug "error parsing evt json:{}"].
Proof.
  intros Hpc Hs Hj. eexists. unfold step, loop_head, then_do.
  rewrite Hpc, Hj, Hs. simpl. repeat split.
Qed.

(** A frame on which [json.loads] raises another exception is not
    dropped: the exception reaches [except Exception], and the loop
    leaves through [_reconnect_sync]. *)
Lemma frame_raising_other_reconnects (o : t) (sock : socket)
    (evt : string) :
  run_pc o = Receiving sock ->
  json_loads evt = RaisesOther ->
  step json_loads o (Recv evt)
  = Some (handle_raised sock RaisedException o).
Proof.
  intros Hpc Hj. unfold step. rewrite Hpc, Hj. reflexivity.
Qed.

(** What [cancel] leaves: no socket, and a task asked to stop. *)
Lemma cancel_clears_socket (o o' : t) (e : list effect) :
  cancel o = Some (o', e) ->
  _socket o' = None /\ run_pc o' = run_pc o
  /\ exists k, _conn o' = Some k /\ cancel_requested k = true.
Proof.
  unfold cancel. destruct (_conn o) as [k|]; [|discriminate].
  intros H. injection H as <- _. simpl. eauto.
Qed.

(** The [CancelledError] that follows [cancel] is caught inside the loop:
    nothing is dispatched, and the next [self._socket.recv()] fails on
    the cleared socket, which reconnects the object. *)
Lemma cancelled_loop_reconnects (o : t) (sock : socket)
    (ping : option raised) :
  run_pc o = Receiving sock -> _socket o = None ->
  (_reconnects o + 1 < MAX_RECONNECTS)%Z ->
  exists o' es,
    step json_loads o (CancelledError ping) = Some (o', es)
    /\ dispatched es = [] /\ futures es = [spawned o]
    /\ run_pc o' = Connecting.
Proof.
  intros Hpc Hs Hlt. unfold step, send_ping, loop_head.
  rewrite Hpc, Hs. eexists. eexists. split; [reflexivity|].
  unfold then_do. simpl fst. simpl snd.
  destruct (handle_raised_snd sock RaisedException o) as [msg ->].
  destruct (reconnect_sync_below_ceiling (set_pc Returned o) Hlt)
    as (pre & Hpre & _ & Hfu & Hp & _).
  rewrite handle_raised_fst.
  rewrite !dispatched_app, !futures_app, reconnect_sync_dispatched.
  rewrite Hpre, futures_app, Hfu. repeat split. exact Hp.
Qed.

(** Every frame that decodes is handed to the handler. *)
Lemma decoded_frame_is_dispatched (o : t) (sock s : socket) (evt : string)
    (h : callback) (v : json) :
  run_pc o = Receiving sock -> _socket o = Some s -> _coro o = Some h ->
  json_loads evt = Loaded v ->
  step json_loads o (Recv evt) = Some (o, [Dispatch h v]).
Proof.
  intros Hpc Hs Hc Hj. unfold step, loop_head, then_do.
  rewrite Hpc, Hj, Hc, Hs. reflexivity.
Qed.

Lemma handle_raised_counter (sock : socket) (r : raised) (o : t) :
  _reconnects o = 0%Z -> counter_reset (fst (handle_raised sock r o)).
Proof.
  intros E. rewrite handle_raised_fst.
  assert (Hlt : (_reconnects (set_pc Returned o) + 1 < MAX_RECONNECTS)%Z).
  { simpl. rewrite E. reflexivity. }
  destruct (reconnect_sync_below_ceiling _ Hlt) as (_ & _ & _ & _ & Hp & _).
  split.
  - rewrite reconnect_sync_reconnects. simpl. lia.
  - intros s Hs. rewrite Hp in Hs. discriminate.
Qed.

Lemma loop_head_counter (sock : socket) (o : t) :
  counter_reset o -> _reconnects o = 0%Z ->
  counter_reset (fst (loop_head sock o)).
Proof.
  intros Hc E. unfold loop_head. destruct (_socket o); [exact Hc|].
  now apply handle_raised_counter.
Qed.

Lemma some_pair_fst {A B : Type} (x : A * B) (a : A) (b : B) :
  Some x = Some (a, b) -> a = fst x.
Proof. intros H. injection H as ->. reflexivity. Qed.

Lemma step_counter (o o' : t) (ev : event) (es : list effect) :
  counter_reset o -> step json_loads o ev = Some (o', es) ->
  counter_reset o'.
Proof.
  intros Hc. unfold step.
  destruct (run_pc o) eqn:Hpc.
  - destruct ev; try discriminate; intros H; apply some_pair_fst in H;
      subst o'.
    + split; simpl; [lia | reflexivity].
    + split; [apply Hc | simpl; discriminate].
    + split; [apply Hc | simpl; discriminate].
  - assert (E : _reconnects o = 0%Z) by (apply (proj2 Hc sock); exact Hpc).
    destruct ev; try discriminate.
    + destruct (json_loads evt); [destruct (_coro o)| |];
        intros H; apply some_pair_fst in H; subst o'; simpl;
        try (now apply loop_head_counter);
        now apply handle_raised_counter.
    + destruct (send_ping ping o) as [e [x|]];
        intros H; apply some_pair_fst in H; subst o'; simpl;
        [now apply handle_raised_counter | now apply loop_head_counter].
    + destruct (send_ping ping o) as [e [x|]];
        intros H; apply some_pair_fst in H; subst o'; simpl;
        [now apply handle_raised_counter | now apply loop_head_counter].
    + intros H; apply some_pair_fst in H; subst o'.
      now apply handle_raised_counter.
    + intros H; apply some_pair_fst in H; subst o'.
      now apply handle_raised_counter.
  - destruct ev; discriminate.
Qed.

Lemma run_counter (evs : list event) (o : t) :
  counter_reset o -> counter_reset (fst (run json_loads evs o)).
Proof.
  revert o. induction evs as [|ev evs IH]; intros o Hc; simpl; [exact Hc|].
  destruct (step json_loads o ev) as [[o' es]|] eqn:E; [|exact Hc].
  simpl. apply IH. exact (step_counter _ _ _ _ Hc E).
Qed.

Lemma run_never_reaches_ceiling (domain path prefix : string)
    (coro : option callback) (evs : list event) :
  (_reconnects (fst (run json_loads evs (fst (new domain path coro prefix))))
   < MAX_RECONNECTS)%Z.
Proof.
  assert (H : counter_reset (fst (new domain path coro prefix))).
  { split; simpl; [lia | discriminate]. }
  apply (run_counter evs) in H. destruct H as [H _].
  unfold MAX_RECONNECTS. lia.
Qed.

End Loop.

Lemma transport_failure_waits_min_reconnect_wait_witness :
  exists o' pre,
    step Samples.json_loads_literals Samples.open_trade_stream
      OtherException
      = Some (o', pre ++ [Sleep MIN_RECONNECT_WAIT; EnsureFuture 1;
                          WsClose 7%nat])
    /\ slept pre = [] /\ futures pre = []
    /\ _reconnects o' = (0 + 1)%Z
    /\ run_pc o' = Connecting.
Proof.
  apply (transport_failure_waits_min_reconnect_wait
           Samples.json_loads_literals Samples.open_trade_stream 7%nat
           OtherException).
  - reflexivity.
  - right. reflexivity.
  - reflexivity.
Defined.

(** C4 fails as stated: on the open trade stream a closed transport is
    followed by a sleep of 1/10 s, and no draw of [random()] makes
    [_get_reconnect_wait 1] equal to that. *)
Lemma transport_failure_wait_is_not_backoff :
  exists o' es,
    step Samples.json_loads_literals Samples.open_trade_stream
      ConnectionClosed = Some (o', es)
    /\ _reconnects o' = 1%Z
    /\ slept es = [1 # 10]
    /\ forall r : Q, 0 <= r -> r <= 1 ->
         ~ (1 # 10) == inject_Z (_get_reconnect_wait (_reconnects o') r).
Proof.
  eexists. eexists. split; [reflexivity|].
  split; [reflexivity|]. split; [reflexivity|].
  intros r Hr0 Hr1.
  apply (BackoffFacts.get_reconnect_wait_above_min 1 r); [lia | exact Hr0 | exact Hr1].
Qed.

(** The randomized wait is what [_reconnect] sleeps; [_run] does not call
    that coroutine. *)
Lemma reconnect_waits_backoff (r : Q) (o : t) (k : task) :
  _conn o = Some k ->
  (_reconnects o + 1 < MAX_RECONNECTS)%Z ->
  exists o',
    _reconnect r o
      = Some (o', [TaskCancel (task_id k);
                   LogDebug "websocket {} reconnecting {} reconnects left"],
              Some (_get_reconnect_wait (_reconnects o + 1) r))
    /\ _reconnects o' = (_reconnects o + 1)%Z.
Proof.
  intros Hk Hlt. apply Z.ltb_lt in Hlt.
  unfold _reconnect, cancel. rewrite Hk. simpl. rewrite Hlt. simpl.
  eexists. split; reflexivity.
Qed.

Lemma undecodable_frame_is_discarded_witness :
  exists es,
    step Samples.json_loads_literals Samples.open_trade_stream
      (Recv "{e:trade,")
      = Some (Samples.open_trade_stream, es)
    /\ dispatched es = []
    /\ es = [LogDebug "error parsing evt json:{}"].
Proof.
  apply (undecodable_frame_is_discarded Samples.json_loads_literals
           Samples.open_trade_stream 7%nat 7%nat "{e:trade,");
    reflexivity.
Defined.

(** C8 fails as stated: the frame of two thousand opening brackets does
    not decode, the decoder raising an exception that is no
    [ValueError]; on the open trade stream it is not dropped: the loop
    leaves through [_reconnect_sync], the socket is cleared and a new
    task is scheduled. *)
Lemma deeply_nested_frame_reconnects :
  Samples.json_loads_literals (Samples.brackets 2000) = RaisesOther
  /\ exists o' es,
       step Samples.json_loads_literals Samples.open_trade_stream
         (Recv (Samples.brackets 2000)) = Some (o', es)
       /\ dispatched es = []
       /\ run_pc o' = Connecting /\ _socket o' = None
       /\ _reconnects o' = 1%Z /\ futures es = [1%nat]
       /\ o' <> Samples.open_trade_stream.
Proof.
  split; [vm_compute; reflexivity|].
  eexists. eexists. split; [vm_compute; reflexivity|].
  repeat split.
  intros H. apply (f_equal run_pc) in H. discriminate H.
Qed.





End RunFacts.

(** ** Dicts and string prefixes *)

Module DictFacts.
Section DictFacts.

Context {V : Type}.
Implicit Types (d l : Dict.dict V) (k : string) (v : V).

Lemma get_app_fresh k l1 l2 :
  ~ In k (Dict.keys l1) -> Dict.get k (l1 ++ l2) = Dict.get k l2.
Proof.
  induction l1 as [|[k' v'] l1 IH]; simpl; intros H; [reflexivity|].
  destruct (String.eqb_spec k k') as [->|N]; [exfalso; auto|].
  apply IH. intros HI. apply H. now right.
Qed.

Lemma del_app_fresh k l1 l2 :
  ~ In k (Dict.keys l1) -> Dict.del k (l1 ++ l2) = l1 ++ Dict.del k l2.
Proof.
  induction l1 as [|[k' v'] l1 IH]; simpl; intros H; [reflexivity|].
  destruct (String.eqb_spec k k') as [->|N]; [exfalso; auto|].
  f_equal. apply IH. intros HI. apply H. now right.
Qed.

Lemma get_here k v l : Dict.get k ((k, v) :: l) = Some v.
Proof. simpl. now rewrite String.eqb_refl. Qed.

Lemma del_here k v l : Dict.del k ((k, v) :: l) = l.
Proof. simpl. now rewrite String.eqb_refl. Qed.

Lemma length_del k d : (length d <= S (length (Dict.del k d)))%nat.
Proof.
  induction d as [|[k' v'] d IH]; simpl; [lia|].
  destruct (String.eqb k k'); simpl; lia.
Qed.

Lemma mem_keys k d : Dict.mem k d = true <-> In k (Dict.keys d).
Proof.
  unfold Dict.mem. induction d as [|[k' v'] d IH]; simpl.
  - split; [discriminate | tauto].
  - destruct (String.eqb_spec k k') as [->|N].
    + split; auto.
    + rewrite IH. split; [auto | intros [E|H]; congruence].
Qed.

Lemma mem_del_other k k' d :
  k <> k' -> Dict.mem k' d = true -> Dict.mem k' (Dict.del k d) = true.
Proof.
  intros N. unfold Dict.mem.
  induction d as [|[k0 v0] d IH]; simpl; [auto|].
  destruct (String.eqb_spec k k0) as [->|N0].
  - destruct (String.eqb_spec k' k0) as [->|N1]; [congruence | auto].
  - simpl. destruct (String.eqb k' k0); auto.
Qed.

Lemma mem_set k k' v d :
  Dict.mem k' (Dict.set k v d) = String.eqb k' k || Dict.mem k' d.
Proof.
  unfold Dict.mem. induction d as [|[k0 v0] d IH]; simpl.
  - destruct (String.eqb k' k); reflexivity.
  - destruct (String.eqb_spec k k0) as [->|N0]; simpl.
    + destruct (String.eqb k' k0); reflexivity.
    + destruct (String.eqb_spec k' k0) as [->|N1].
      * now rewrite orb_true_r.
      * exact IH.
Qed.

Lemma keys_set_fresh k v d :
  Dict.mem k d = false -> Dict.keys (Dict.set k v d) = Dict.keys d ++ [k].
Proof.
  unfold Dict.mem. induction d as [|[k0 v0] d IH]; simpl; [reflexivity|].
  destruct (String.eqb k k0); [discriminate|].
  intros H. simpl. f_equal. now apply IH.
Qed.

End DictFacts.

Lemma length_substring_0 (n : nat) (s : string) :
  String.length (substring 0 n s) = Nat.min n (String.length s).
Proof.
  revert s. induction n as [|n IH]; intros [|c s]; simpl; auto.
Qed.

End DictFacts.

(** ** The registry and the account sockets *)

Module ManagerFacts.
Import BinanceSocketManager.

Ltac run_m := unfold bind, gets, modify, ret; simpl.

Lemma socket_type_eqb_spec (a b : socket_type) :
  reflect (a = b) (socket_type_eqb a b).
Proof. destruct a, b; constructor; congruence. Qed.

Lemma lookup_update_same {A} (ty : socket_type) (v : A) (d : per_type A) :
  lookup ty (update ty v d) = v.
Proof. destruct ty; reflexivity. Qed.

Lemma lookup_update_other {A} (ty ty' : socket_type) (v : A)
    (d : per_type A) :
  ty <> ty' -> lookup ty' (update ty v d) = lookup ty' d.
Proof. destruct ty, ty'; intros N; try reflexivity; congruence. Qed.

(** *** [_start_socket] and the start methods *)

(** C7: starting a stream whose key is already in [_conns] returns
    [False] and leaves the manager, hence the registry and the object
    under the key, exactly as they were. *)
Theorem start_socket_on_active_key (m : t) (path prefix : string)
    (coro : option callback) (ty : socket_type) :
  Dict.mem path (_conns m) = true ->
  _start_socket path coro prefix ty m = Ok PyFalse m.
Proof.
  intros H. unfold _start_socket. run_m. rewrite H. reflexivity.
Qed.

Lemma start_socket_on_active_key_witness :
  let m := final (_start_socket "btcusdt@trade" (Some 0%nat) "ws/" user
                    (new DEFAULT_USER_TIMEOUT)) in
  _start_socket "btcusdt@trade" (Some 1%nat) "ws/" user m = Ok PyFalse m.
Proof.
  intros m.
  apply (start_socket_on_active_key m "btcusdt@trade" "ws/" (Some 1%nat)
           user).
  reflexivity.
Defined.

Lemma start_socket_returns (m : t) (path prefix : string)
    (coro : option callback) (ty : socket_type) :
  exists r m', _start_socket path coro prefix ty m = Ok r m'
    /\ Dict.mem path (_conns m') = true
    /\ forall k, Dict.mem k (_conns m) = true ->
                 Dict.mem k (_conns m') = true.
Proof.
  unfold _start_socket. run_m.
  destruct (Dict.mem path (_conns m)) eqn:E; simpl.
  - exists PyFalse, m. auto.
  - eexists. eexists. split; [reflexivity|]. simpl. split.
    + rewrite DictFacts.mem_set, String.eqb_refl. reflexivity.
    + intros k Hk. rewrite DictFacts.mem_set, Hk. apply orb_true_r.
Qed.

(** Whatever [_start_socket] answers, [start_trade_socket] returns the
    path. *)
Lemma start_trade_socket_returns_path (m : t) (symbol : string)
    (coro : option callback) :
  exists m',
    start_trade_socket symbol coro m
      = Ok (ConnKey (lower symbol ++ "@trade")) m'.
Proof.
  unfold start_trade_socket, bind.
  destruct (start_socket_returns m (lower symbol ++ "@trade") "ws/" coro
              user) as (r & m' & -> & _).
  exists m'. reflexivity.
Qed.

(** C9 at a registry that already holds the key: [_start_socket] answers
    [False], and the three start methods return the key all the same. *)
Theorem start_methods_return_key_when_active :
  let m0 := new DEFAULT_USER_TIMEOUT in
  let m1 := final (start_trade_socket "BTCUSDT" (Some 0%nat) m0) in
  let m2 := final (start_kline_socket "BNBBTC" (Some 0%nat) "1m" m1) in
  let m := final (start_depth_socket "ETHBTC" (Some 0%nat) 20 100 m2) in
  Dict.keys (_conns m)
    = ["btcusdt@trade"; "bnbbtc@kline_1m"; "ethbtc@depth20@100ms"]
  /\ _start_socket "btcusdt@trade" (Some 1%nat) "ws/" user m = Ok PyFalse m
  /\ start_trade_socket "BTCUSDT" (Some 1%nat) m
     = Ok (ConnKey "btcusdt@trade") m
  /\ start_kline_socket "BNBBTC" (Some 1%nat) "1m" m
     = Ok (ConnKey "bnbbtc@kline_1m") m
  /\ start_depth_socket "ETHBTC" (Some 1%nat) 20 100 m
     = Ok (ConnKey "ethbtc@depth20@100ms") m
  /\ start_arbitrary_socket STREAM_URL "btcusdt@trade" (Some 1%nat) "ws/" m
     = Ok PyFalse m.
Proof. vm_compute. repeat split. Qed.

(** *** [stop_socket] *)

Lemma stop_account_socket_spec (ty : socket_type) (m : t) :
  exists m',
    _stop_account_socket ty m = Ok tt m'
    /\ _conns m' = _conns m
    /\ _listen_keys m'
       = if opt_truthy (lookup ty (_listen_keys m))
         then update ty None (_listen_keys m) else _listen_keys m.
Proof.
  unfold _stop_account_socket. run_m.
  destruct (opt_truthy (lookup ty (_listen_keys m))); simpl.
  - destruct (lookup ty (_timers m)); simpl; eexists; repeat split.
  - exists m. repeat split.
Qed.

(** What the loop of [stop_socket] leaves of a listen key. *)
Lemma stop_socket_loop_spec (conn_key : string) (tys : list socket_type)
    (m : t) :
  exists m',
    stop_socket_loop conn_key tys m = Ok tt m'
    /\ _conns m' = _conns m
    /\ forall ty,
         lookup ty (_listen_keys m')
         = match lookup ty (_listen_keys m) with
           | Some k =>
               if existsb (socket_type_eqb ty) tys
                  && (str_truthy k && has_listen_key conn_key k)
               then None else Some k
           | None => None
           end.
Proof.
  revert m. induction tys as [|key rest IH]; intros m; simpl.
  - exists m. repeat split. intros ty.
    destruct (lookup ty (_listen_keys m)); reflexivity.
  - unfold bind at 1. unfold gets at 1. unfold bind at 1.
    assert (Hstep : exists m1,
      match lookup key (_listen_keys m) with
      | Some k => if str_truthy k && has_listen_key conn_key k
                  then _stop_account_socket key else ret tt
      | None => ret tt
      end m = Ok tt m1
      /\ _conns m1 = _conns m
      /\ _listen_keys m1
         = match lookup key (_listen_keys m) with
           | Some k => if str_truthy k && has_listen_key conn_key k
                       then update key None (_listen_keys m)
                       else _listen_keys m
           | None => _listen_keys m
           end).
    { destruct (lookup key (_listen_keys m)) as [k|] eqn:Ek.
      - destruct (str_truthy k && has_listen_key conn_key k) eqn:Ec.
        + destruct (stop_account_socket_spec key m) as (m1 & H1 & H2 & H3).
          exists m1. rewrite Ek in H3. simpl in H3.
          apply andb_true_iff in Ec. destruct Ec as [Et _].
          rewrite Et in H3. auto.
        + exists m. auto.
      - exists m. auto. }
    destruct Hstep as (m1 & -> & Hc1 & Hl1).
    destruct (IH m1) as (m' & -> & Hc & Hl).
    exists m'. split; [reflexivity|]. split; [congruence|].
    intros ty. rewrite Hl, Hl1.
    destruct (socket_type_eqb_spec ty key) as [->|N]; simpl.
    + destruct (lookup key (_listen_keys m)) as [k|] eqn:Ek.
      * destruct (str_truthy k && has_listen_key conn_key k) eqn:Ec.
        -- now rewrite lookup_update_same.
        -- rewrite Ek, Ec, andb_false_r. reflexivity.
      * rewrite Ek. reflexivity.
    + assert (E : lookup ty
                (match lookup key (_listen_keys m) with
                 | Some k => if str_truthy k && has_listen_key conn_key k
                             then update key None (_listen_keys m)
                             else _listen_keys m
                 | None => _listen_keys m
                 end) = lookup ty (_listen_keys m)).
      { destruct (lookup key (_listen_keys m)) as [k|];
          [destruct (_ && _)|]; try reflexivity.
        apply lookup_update_other. congruence. }
      rewrite E. reflexivity.
Qed.

Lemma stop_socket_absent (conn_key : string) (m : t) :
  Dict.get conn_key (_conns m) = None -> stop_socket conn_key m = Ok tt m.
Proof. intros H. unfold stop_socket. run_m. rewrite H. reflexivity. Qed.

Lemma cancel_some (c : RW.t) :
  RW._conn c <> None -> exists c' e, RW.cancel c = Some (c', e).
Proof.
  unfold RW.cancel. destruct (RW._conn c); [eauto | congruence].
Qed.

(** [stop_socket] on a registered key: the entry goes, and a session
    whose listen key the connection key carries is closed. *)
Lemma stop_socket_present (conn_key : string) (c : RW.t) (m : t) :
  Dict.get conn_key (_conns m) = Some c ->
  RW._conn c <> None ->
  exists m',
    stop_socket conn_key m = Ok tt m'
    /\ _conns m' = Dict.del conn_key (_conns m)
    /\ forall ty,
         lookup ty (_listen_keys m')
         = match lookup ty (_listen_keys m) with
           | Some k => if str_truthy k && has_listen_key conn_key k
                       then None else Some k
           | None => None
           end.
Proof.
  intros Hg Hc. unfold stop_socket. unfold bind at 1, gets at 1.
  rewrite Hg. destruct (cancel_some c Hc) as (c' & e & ->).
  unfold bind at 1, modify at 1.
  destruct (stop_socket_loop_spec conn_key socket_types
              (emit (Cancel conn_key)
                 (set_conns (Dict.del conn_key (_conns m)) m)))
    as (m' & -> & H1 & H2).
  exists m'. split; [reflexivity|]. split; [exact H1|].
  intros ty. rewrite H2.
  replace (existsb (socket_type_eqb ty) socket_types) with true
    by (destruct ty; reflexivity).
  reflexivity.
Qed.

(** In every case [stop_socket] removes at most the entry of its key. *)
Lemma stop_socket_conns (conn_key : string) (m : t) :
  _conns (final (stop_socket conn_key m)) = _conns m
  \/ _conns (final (stop_socket conn_key m))
     = Dict.del conn_key (_conns m).
Proof.
  destruct (Dict.get conn_key (_conns m)) as [c|] eqn:Hg.
  - destruct (RW._conn c) as [k|] eqn:Hk.
    + destruct (stop_socket_present conn_key c m Hg) as (m' & -> & H & _);
        [congruence|]. right. exact H.
    + left. unfold stop_socket. run_m. rewrite Hg.
      unfold RW.cancel. rewrite Hk. reflexivity.
  - left. now rewrite stop_socket_absent.
Qed.

(** *** The listen-key test *)

(** C6, as the code has it: a connection key carries a listen key exactly
    when the listen key has 60 characters, the connection key is at least
    as long and starts with it. *)
Theorem has_listen_key_iff (conn_key listen_key : string) :
  has_listen_key conn_key listen_key = true
  <-> String.length listen_key = 60%nat
      /\ (String.length listen_key <= String.length conn_key)%nat
      /\ substring 0 (String.length listen_key) conn_key = listen_key.
Proof.
  unfold has_listen_key. rewrite andb_true_iff, Nat.leb_le, String.eqb_eq.
  split.
  - intros [Hlen Hsub].
    assert (E : String.length listen_key = 60%nat).
    { rewrite <- Hsub, DictFacts.length_substring_0. lia. }
    rewrite E. auto.
  - intros (E & Hlen & Hsub). rewrite E in *. auto.
Qed.

(** The same test, as it is written. *)
Lemma has_listen_key_60 (conn_key listen_key : string) :
  has_listen_key conn_key listen_key = true
  <-> (60 <= String.length conn_key)%nat
      /\ substring 0 60 conn_key = listen_key.
Proof.
  unfold has_listen_key.
  now rewrite andb_true_iff, Nat.leb_le, String.eqb_eq.
Qed.

(** [stop_socket] closes the session of a type exactly when the key
    stopped carries its listen key. *)
Lemma stop_socket_closes_session_iff (conn_key listen_key : string)
    (c : RW.t) (ty : socket_type) (m : t) :
  Dict.get conn_key (_conns m) = Some c ->
  RW._conn c <> None ->
  lookup ty (_listen_keys m) = Some listen_key ->
  str_truthy listen_key = true ->
  lookup ty (_listen_keys (final (stop_socket conn_key m))) = None
  <-> has_listen_key conn_key listen_key = true.
Proof.
  intros Hg Hc Hl Ht.
  destruct (stop_socket_present conn_key c m Hg Hc) as (m' & -> & _ & H).
  simpl. rewrite H, Hl, Ht. simpl.
  destruct (has_listen_key conn_key listen_key); split;
    congruence.
Qed.

(** C6 fails as stated: the session token [abc] is a prefix of the
    connection key [abc@arr], and the key is not taken to carry it, so
    that stopping the key leaves the session; and a token of 64
    characters is not carried by the key equal to it. *)
Lemma short_listen_key_is_not_matched :
  (String.length "abc" <= String.length "abc@arr")%nat
  /\ substring 0 (String.length "abc") "abc@arr" = "abc"
  /\ has_listen_key "abc@arr" "abc" = false
  /\ has_listen_key Samples.listen_key_64 Samples.listen_key_64 = false
  /\ (let m0 := new DEFAULT_USER_TIMEOUT in
      let m1 := final (start_user_socket (Some 0%nat) "abc" m0) in
      let m2 := final (start_arbitrary_socket STREAM_URL "abc@arr"
                         (Some 1%nat) "ws/" m1) in
      let m3 := final (stop_socket "abc@arr" m2) in
      Dict.keys (_conns m2) = ["abc"; "abc@arr"]
      /\ Dict.keys (_conns m3) = ["abc"]
      /\ lookup user (_listen_keys m3) = Some "abc").
Proof. vm_compute. repeat split. lia. Qed.

(** *** [_check_account_socket_open] *)

Lemma check_loop_no_match (listen_key : string) (l : list string) (m : t) :
  (forall k, In k l -> has_listen_key k listen_key = false) ->
  check_loop listen_key l m = Ok tt m.
Proof.
  induction l as [|k l IH]; simpl; intros H; [reflexivity|].
  rewrite (H k) by now left. apply IH. intros k0 H0. apply H. now right.
Qed.

Lemma check_loop_first_match (listen_key : string) (l1 l2 : list string)
    (k : string) (m : t) :
  (forall k0, In k0 l1 -> has_listen_key k0 listen_key = false) ->
  has_listen_key k listen_key = true ->
  check_loop listen_key (l1 ++ k :: l2) m = stop_socket k m.
Proof.
  intros H Hk. induction l1 as [|k1 l1 IH]; simpl.
  - now rewrite Hk.
  - rewrite (H k1) by now left. apply IH. intros k0 H0. apply H. now right.
Qed.

Lemma check_loop_cases (listen_key : string) (l : list string) (m : t) :
  check_loop listen_key l m = Ok tt m
  \/ exists k, In k l /\ has_listen_key k listen_key = true
               /\ check_loop listen_key l m = stop_socket k m.
Proof.
  induction l as [|k l IH]; simpl; [now left|].
  destruct (has_listen_key k listen_key) eqn:E.
  - right. exists k. auto.
  - destruct IH as [H|(k' & H1 & H2 & H3)]; [now left|].
    right. exists k'. auto.
Qed.

Lemma check_account_socket_open_cases (listen_key : string) (m : t) :
  _check_account_socket_open listen_key m = Ok tt m
  \/ exists k, In k (Dict.keys (_conns m))
               /\ has_listen_key k listen_key = true
               /\ _check_account_socket_open listen_key m
                  = stop_socket k m.
Proof.
  unfold _check_account_socket_open.
  destruct (str_truthy listen_key); simpl; [|now left].
  unfold bind, gets. apply check_loop_cases.
Qed.

(** C10: the cleanup before a session starts removes at most one entry
    of the registry; when keys carry the listen key, every entry but the
    first of them in the order of the dict stays, later carriers
    included, and that first one is the entry [stop_socket] removes. *)
Theorem check_account_socket_open_stops_first_match_only (m : t)
    (listen_key : string) :
  (length (_conns m)
   <= S (length (_conns (final
                           (_check_account_socket_open listen_key m)))))%nat
  /\ forall l1 k c l2,
       _conns m = l1 ++ (k, c) :: l2 ->
       str_truthy listen_key = true ->
       (forall k0, In k0 (Dict.keys l1) ->
                   has_listen_key k0 listen_key = false) ->
       has_listen_key k listen_key = true ->
       (forall e, In e (l1 ++ l2) ->
          In e (_conns (final (_check_account_socket_open listen_key m))))
       /\ (RW._conn c <> None ->
           exists m',
             _check_account_socket_open listen_key m = Ok tt m'
             /\ _conns m' = l1 ++ l2).
Proof.
  split.
  - destruct (check_account_socket_open_cases listen_key m)
      as [-> | (k & _ & _ & ->)]; simpl; [lia|].
    destruct (stop_socket_conns k m) as [-> | ->];
      [lia | apply DictFacts.length_del].
  - intros l1 k c l2 Hm Ht Hl1 Hk.
    assert (Hfresh : ~ In k (Dict.keys l1)).
    { intros HI. apply Hl1 in HI. congruence. }
    assert (Hg : Dict.get k (_conns m) = Some c).
    { rewrite Hm, DictFacts.get_app_fresh by exact Hfresh.
      apply DictFacts.get_here. }
    assert (Hrun : _check_account_socket_open listen_key m
                   = stop_socket k m).
    { unfold _check_account_socket_open. rewrite Ht. simpl.
      unfold bind, gets. rewrite Hm. unfold Dict.keys.
      rewrite map_app. simpl.
      now apply check_loop_first_match. }
    assert (Hdel : Dict.del k (_conns m) = l1 ++ l2).
    { rewrite Hm, DictFacts.del_app_fresh by exact Hfresh.
      now rewrite DictFacts.del_here. }
    split.
    + intros e He. rewrite Hrun.
      destruct (stop_socket_conns k m) as [-> | ->].
      * rewrite Hm. apply in_app_or in He. apply in_or_app.
        destruct He; [now left | right; now right].
      * now rewrite Hdel.
    + intros Hc.
      destruct (stop_socket_present k c m Hg Hc) as (m' & Hs & Hd & _).
      exists m'. split; [now rewrite Hrun | now rewrite Hd].
Qed.

Lemma check_account_socket_open_stops_first_match_only_witness :
  exists m',
    _check_account_socket_open Samples.listen_key_A Samples.three_streams
      = Ok tt m'
    /\ _conns m'
       = [("btcusdt@trade", Samples.stream "btcusdt@trade")]
         ++ [((Samples.listen_key_A ++ "@y")%string,
              Samples.stream (Samples.listen_key_A ++ "@y"))].
Proof.
  refine (proj2 (proj2 (check_account_socket_open_stops_first_match_only
                          Samples.three_streams Samples.listen_key_A)
                   [("btcusdt@trade", Samples.stream "btcusdt@trade")]
                   (Samples.listen_key_A ++ "@x")%string
                   (Samples.stream (Samples.listen_key_A ++ "@x"))
                   [((Samples.listen_key_A ++ "@y")%string,
                     Samples.stream (Samples.listen_key_A ++ "@y"))]
                   _ _ _ _) _).
  - reflexivity.
  - reflexivity.
  - intros k0 [<- | []]. reflexivity.
  - reflexivity.
  - discriminate.
Defined.

(** *** Renewal of a listen key *)

(** C1 at a rotation of the user listen key from A to B: the renewal
    starts the connection keyed by B and stops nothing, so both keys are
    in the registry afterwards. *)
Theorem keepalive_rotation_leaves_both_registered :
  let m0 := final (start_user_socket (Some 0%nat) Samples.listen_key_A
                     (new DEFAULT_USER_TIMEOUT)) in
  let m1 := final (_keepalive_account_socket user Samples.listen_key_B
                     m0) in
  Dict.keys (_conns m0) = [Samples.listen_key_A]
  /\ lookup user (_listen_keys m0) = Some Samples.listen_key_A
  /\ Dict.keys (_conns m1) = [Samples.listen_key_A; Samples.listen_key_B]
  /\ lookup user (_listen_keys m1) = Some Samples.listen_key_B
  /\ trace m1
     = trace m0 ++ [ClientCall "stream_get_listen_key" None;
                    Construct Samples.listen_key_B;
                    CallLater DEFAULT_USER_TIMEOUT user 1].
Proof. vm_compute. repeat split. Qed.

Lemma check_account_socket_open_keeps (listen_key : string) (m : t) :
  (forall k c, Dict.get k (_conns m) = Some c -> RW._conn c <> None) ->
  exists m',
    _check_account_socket_open listen_key m = Ok tt m'
    /\ forall k, has_listen_key k listen_key = false ->
                 Dict.mem k (_conns m) = true ->
                 Dict.mem k (_conns m') = true.
Proof.
  intros Halive.
  destruct (check_account_socket_open_cases listen_key m)
    as [-> | (k' & Hin & Hk' & ->)].
  - exists m. auto.
  - apply DictFacts.mem_keys in Hin. unfold Dict.mem in Hin.
    destruct (Dict.get k' (_conns m)) as [c|] eqn:Hg; [|discriminate].
    destruct (stop_socket_present k' c m Hg (Halive k' c Hg))
      as (m' & -> & Hd & _).
    exists m'. split; [reflexivity|]. intros k Hk Hm. rewrite Hd.
    apply DictFacts.mem_del_other; [congruence | exact Hm].
Qed.

Lemma start_account_socket_keeps (ty : socket_type) (listen_key : string)
    (cb : option callback) (m : t) :
  (forall k c, Dict.get k (_conns m) = Some c -> RW._conn c <> None) ->
  exists r m',
    _start_account_socket ty listen_key cb m = Ok r m'
    /\ Dict.mem listen_key (_conns m') = true
    /\ forall k, has_listen_key k listen_key = false ->
                 Dict.mem k (_conns m) = true ->
                 Dict.mem k (_conns m') = true.
Proof.
  intros Halive. unfold _start_account_socket.
  destruct (check_account_socket_open_keeps listen_key m Halive)
    as (m2 & Hcheck & Hkeep).
  unfold bind at 1. rewrite Hcheck.
  unfold bind at 1, modify at 1. unfold bind at 1, modify at 1.
  unfold bind at 1.
  match goal with
  | |- context [_start_socket ?p ?c ?x ?y ?s] =>
      destruct (start_socket_returns s p x c y) as (r & m4 & -> & Hin & Hpres)
  end.
  simpl in Hpres.
  exists r. destruct (started_truthy r); run_m; eexists;
    (split; [reflexivity|]); simpl; auto.
Qed.

(** Whenever the key of the previous listen key does not carry the new
    one, the renewal leaves it in the registry beside the new key. *)
Lemma keepalive_rotation_keeps_previous (ty : socket_type)
    (old_key new_key : string) (m : t) :
  (forall k c, Dict.get k (_conns m) = Some c -> RW._conn c <> None) ->
  lookup ty (_listen_keys m) = Some old_key ->
  Dict.mem old_key (_conns m) = true ->
  old_key <> new_key ->
  has_listen_key old_key new_key = false ->
  exists m',
    _keepalive_account_socket ty new_key m = Ok tt m'
    /\ Dict.mem old_key (_conns m') = true
    /\ Dict.mem new_key (_conns m') = true.
Proof.
  intros Halive Hold Hmem Hne Hno. unfold _keepalive_account_socket.
  unfold bind at 1, modify at 1. unfold bind at 1, gets at 1.
  unfold bind at 1, gets at 1.
  change (lookup ty (_listen_keys (emit ?e m)))
    with (lookup ty (_listen_keys m)).
  rewrite Hold.
  destruct (String.eqb_spec new_key old_key) as [E|_]; [congruence|].
  unfold bind at 1.
  match goal with
  | |- context [_start_account_socket ?a ?b ?c ?s] =>
      destruct (start_account_socket_keeps a b c s) as (r & m' & -> & Hin & Hk)
  end; [exact Halive|].
  exists m'. split; [reflexivity|]. split; [|exact Hin].
  apply Hk; [exact Hno | exact Hmem].
Qed.

(** *** A stopped stream *)

(** C2 at the open trade stream when it is stopped: [stop_socket] takes
    the key out of the registry and calls [cancel] on the object, and
    the handler is called all the same, for a frame that the pending
    [recv] of the old transport still delivers, and, the
    [CancelledError] being caught, for the frames of the transport that
    the object opens next. *)
Theorem stopped_stream_keeps_calling_handler :
  exists m' o1 e1,
    stop_socket "btcusdt@trade" Samples.trade_open = Ok tt m'
    /\ _conns m' = []
    /\ trace m' = [Cancel "btcusdt@trade"]
    /\ RW.cancel Samples.open_trade_stream = Some (o1, e1)
    /\ RW.dispatched
         (snd (RW.run Samples.json_loads_literals [RW.Recv "true"] o1))
       = [(0%nat, JBool true)]
    /\ (let r := RW.run Samples.json_loads_literals
                   [RW.CancelledError None; RW.ConnectOk 8%nat;
                    RW.Recv "null"] o1 in
        RW.run_pc (fst r) = RW.Receiving 8%nat
        /\ RW.futures (snd r) = [1%nat]
        /\ RW.dispatched (snd r) = [(0%nat, JNull)]).
Proof.
  eexists. eexists. eexists.
  split; [vm_compute; reflexivity|].
  split; [reflexivity|]. split; [reflexivity|].
  split; [reflexivity|].
  split; vm_compute; repeat split.
Qed.

End ManagerFacts.

(** ** More on the receive loop *)

Module RunExtras.
Import ReconnectingWebsocket.

Lemma pinged_app (a b : list effect) :
  pinged (a ++ b) = pinged a ++ pinged b.
Proof. unfold pinged. apply flat_map_app. Qed.

Lemma reconnect_sync_pinged (o : t) : pinged (snd (_reconnect_sync o)) = [].
Proof.
  unfold _reconnect_sync.
  destruct (_conn o) as [k|]; [destruct (task_cancelled k)|]; simpl;
    destruct (_ <? _)%Z; reflexivity.
Qed.

(** The fields [__init__] sets once. *)
Lemma reconnect_sync_static (o : t) :
  let o' := fst (_reconnect_sync o) in
  ws_domain o' = ws_domain o /\ _path o' = _path o
  /\ _prefix o' = _prefix o /\ _coro o' = _coro o.
Proof.
  unfold _reconnect_sync.
  destruct (_conn o) as [k|]; [destruct (task_cancelled k)|]; simpl;
    destruct (_ <? _)%Z; simpl; repeat split.
Qed.

Lemma handle_raised_static (sock : socket) (r : raised) (o : t) :
  let o' := fst (handle_raised sock r o) in
  ws_domain o' = ws_domain o /\ _path o' = _path o
  /\ _prefix o' = _prefix o /\ _coro o' = _coro o.
Proof.
  simpl. rewrite RunFacts.handle_raised_fst.
  exact (reconnect_sync_static (set_pc Returned o)).
Qed.

Lemma loop_head_static (sock : socket) (o : t) :
  let o' := fst (loop_head sock o) in
  ws_domain o' = ws_domain o /\ _path o' = _path o
  /\ _prefix o' = _prefix o /\ _coro o' = _coro o.
Proof.
  unfold loop_head. destruct (_socket o); [simpl; repeat split|].
  apply handle_raised_static.
Qed.

(** X7: for every attempt count from 1 on the reconnect wait is the one
    of the first attempt: the bound [MAX_RECONNECT_SECONDS] is reached at
    once and the wait does not grow with the count. *)
Theorem get_reconnect_wait_does_not_grow (n : Z) (r : Q) :
  (1 <= n)%Z -> _get_reconnect_wait n r = _get_reconnect_wait 1 r.
Proof.
  intros Hn. unfold _get_reconnect_wait, MAX_RECONNECT_SECONDS.
  assert (H : (2 ^ 1 <= 2 ^ n)%Z) by (apply Z.pow_le_mono_r; lia).
  change (2 ^ 1)%Z with 2%Z in *.
  replace (Z.min 1 (2 ^ n - 1)) with 1%Z by lia.
  reflexivity.
Qed.

Lemma get_reconnect_wait_does_not_grow_witness :
  _get_reconnect_wait 999 (3 # 4) = _get_reconnect_wait 1 (3 # 4).
Proof.
  apply (get_reconnect_wait_does_not_grow 999 (3 # 4)). lia.
Defined.

Section Loop.

Variable json_loads : string -> loaded.

Lemma step_static (o o' : t) (ev : event) (es : list effect) :
  step json_loads o ev = Some (o', es) ->
  ws_domain o' = ws_domain o /\ _path o' = _path o
  /\ _prefix o' = _prefix o /\ _coro o' = _coro o.
Proof.
  unfold step. destruct (run_pc o) as [|sock|].
  - destruct ev; try discriminate; intros H;
      apply RunFacts.some_pair_fst in H; subst o'; simpl; repeat split.
  - destruct ev; try discriminate.
    + destruct (json_loads evt); [destruct (_coro o) eqn:Ec| |];
        intros H; apply RunFacts.some_pair_fst in H; subst o'; simpl;
        try rewrite <- Ec;
        first [apply loop_head_static | apply handle_raised_static].
    + destruct (send_ping ping o) as [e [x|]];
        intros H; apply RunFacts.some_pair_fst in H; subst o'; simpl;
        first [apply loop_head_static | apply handle_raised_static].
    + destruct (send_ping ping o) as [e [x|]];
        intros H; apply RunFacts.some_pair_fst in H; subst o'; simpl;
        first [apply loop_head_static | apply handle_raised_static].
    + intros H; apply RunFacts.some_pair_fst in H; subst o'.
      apply handle_raised_static.
    + intros H; apply RunFacts.some_pair_fst in H; subst o'.
      apply handle_raised_static.
  - destruct ev; discriminate.
Qed.

(** X6: whatever happens to the transport, the object keeps its
    endpoint and its handler: every reconnection opens the same URL and
    every frame goes to the same callback. *)
Theorem run_keeps_endpoint_and_handler (evs : list event) (o : t) :
  ws_url (fst (run json_loads evs o)) = ws_url o
  /\ _coro (fst (run json_loads evs o)) = _coro o.
Proof.
  revert o. induction evs as [|ev evs IH]; intros o; simpl; [auto|].
  destruct (step json_loads o ev) as [[o' es]|] eqn:E; [|auto].
  simpl. destruct (step_static _ _ _ _ E) as (Hd & Hp & Hx & Hc).
  destruct (IH o') as [Hu Hc']. split.
  - rewrite Hu. unfold ws_url. now rewrite Hd, Hp, Hx.
  - now rewrite Hc'.
Qed.

Lemma step_recv_open (o : t) (sock s : socket) (h : callback)
    (evt : string) :
  run_pc o = Receiving sock -> _socket o = Some s -> _coro o = Some h ->
  json_loads evt <> RaisesOther ->
  step json_loads o (Recv evt)
  = Some (o, match json_loads evt with
             | Loaded v => [Dispatch h v]
             | _ => [LogDebug "error parsing evt json:{}"]
             end).
Proof.
  intros Hpc Hs Hc Hj. unfold step, loop_head, then_do.
  rewrite Hpc, Hs. destruct (json_loads evt); [rewrite Hc| |]; try reflexivity.
  congruence.
Qed.

(** X2: on an open connection, as long as [json.loads] raises nothing
    but [ValueError], the handler is called once for every frame that
    decodes, in the order of arrival, and for no other; the object is as
    before. *)
Theorem frames_are_dispatched_in_order (o : t) (sock s : socket)
    (h : callback) (evts : list string) :
  run_pc o = Receiving sock -> _socket o = Some s -> _coro o = Some h ->
  (forall evt, In evt evts -> json_loads evt <> RaisesOther) ->
  fst (run json_loads (map Recv evts) o) = o
  /\ dispatched (snd (run json_loads (map Recv evts) o))
     = flat_map (fun evt => match json_loads evt with
                            | Loaded v => [(h, v)]
                            | _ => []
                            end) evts.
Proof.
  intros Hpc Hs Hc. induction evts as [|evt evts IH]; intros Hok; simpl;
    [auto|].
  destruct IH as [IH1 IH2]; [intros e He; apply Hok; now right|].
  rewrite (step_recv_open o sock s h evt Hpc Hs Hc)
    by (apply Hok; now left).
  unfold then_do. simpl. split; [exact IH1|].
  rewrite RunFacts.dispatched_app, IH2.
  destruct (json_loads evt); reflexivity.
Qed.

(** The first frame on which [json.loads] raises another exception ends
    that: it is not dispatched, and the loop leaves through
    [_reconnect_sync], which below the ceiling schedules a new task. *)
Lemma frame_raising_other_ends_the_loop (o : t) (sock s : socket)
    (h : callback) (evts : list string) (evt : string) :
  run_pc o = Receiving sock -> _socket o = Some s -> _coro o = Some h ->
  (forall e, In e evts -> json_loads e <> RaisesOther) ->
  json_loads evt = RaisesOther ->
  (_reconnects o + 1 < MAX_RECONNECTS)%Z ->
  run_pc (fst (run json_loads (map Recv (evts ++ [evt])) o)) = Connecting
  /\ dispatched (snd (run json_loads (map Recv (evts ++ [evt])) o))
     = flat_map (fun e => match json_loads e with
                          | Loaded v => [(h, v)]
                          | _ => []
                          end) evts.
Proof.
  intros Hpc Hs Hc Hok Hj Hlt.
  induction evts as [|e evts IH]; simpl.
  - rewrite (RunFacts.frame_raising_other_reconnects json_loads o sock evt
               Hpc Hj).
    rewrite (surjective_pairing (handle_raised sock RaisedException o)).
    unfold then_do. simpl fst. simpl snd. rewrite app_nil_r.
    destruct (RunFacts.handle_raised_snd sock RaisedException o) as [msg ->].
    rewrite RunFacts.handle_raised_fst.
    destruct (RunFacts.reconnect_sync_below_ceiling (set_pc Returned o) Hlt)
      as (_ & _ & _ & _ & Hp & _).
    split; [exact Hp|].
    rewrite !RunFacts.dispatched_app, RunFacts.reconnect_sync_dispatched.
    reflexivity.
  - destruct IH as [IH1 IH2]; [intros x Hx; apply Hok; now right|].
    rewrite (step_recv_open o sock s h e Hpc Hs Hc)
      by (apply Hok; now left).
    unfold then_do. simpl fst. simpl snd. split; [exact IH1|].
    rewrite RunFacts.dispatched_app, IH2.
    destruct (json_loads e); reflexivity.
Qed.

(** X3: while no frame arrives and the pings go through, every timeout
    sends exactly one ping on the open socket; nothing is dispatched, no
    task is created and the object is as before. *)
Theorem idle_timeouts_only_ping (o : t) (sock s : socket) (n : nat) :
  run_pc o = Receiving sock -> _socket o = Some s ->
  fst (run json_loads (repeat (TimeoutError None) n) o) = o
  /\ pinged (snd (run json_loads (repeat (TimeoutError None) n) o))
     = repeat s n
  /\ dispatched (snd (run json_loads (repeat (TimeoutError None) n) o)) = []
  /\ futures (snd (run json_loads (repeat (TimeoutError None) n) o)) = [].
Proof.
  intros Hpc Hs. induction n as [|n (IH1 & IH2 & IH3 & IH4)]; simpl;
    [auto|].
  assert (E : step json_loads o (TimeoutError None)
              = Some (o, [LogDebug "no message in {} seconds"; Ping s])).
  { unfold step, send_ping, loop_head, then_do. rewrite Hpc, Hs.
    reflexivity. }
  rewrite E. unfold then_do. simpl fst. simpl snd.
  split; [exact IH1|]. split; [|split].
  - change (s :: pinged (snd (run json_loads
                                (repeat (TimeoutError None) n) o))
            = s :: repeat s n).
    now rewrite IH2.
  - exact IH3.
  - exact IH4.
Qed.

(** X4: a lost transport is replaced without the caller: after the
    failure and the next successful [ws.connect] the object is in the
    loop again on the new socket, with [_reconnects] back at 0, having
    slept [MIN_RECONNECT_WAIT] once and called the handler for nothing. *)
Theorem failure_then_connect_reopens (o : t) (sock sock' : socket)
    (ev : event) :
  run_pc o = Receiving sock ->
  ev = ConnectionClosed \/ ev = OtherException ->
  (_reconnects o + 1 < MAX_RECONNECTS)%Z ->
  exists o' es,
    run json_loads [ev; ConnectOk sock'] o = (o', es)
    /\ run_pc o' = Receiving sock' /\ _socket o' = Some sock'
    /\ _reconnects o' = 0%Z
    /\ slept es = [MIN_RECONNECT_WAIT] /\ dispatched es = []
    /\ futures es = [spawned o].
Proof.
  intros Hpc Hev Hlt.
  destruct (RunFacts.step_failure json_loads o sock ev Hpc Hev) as [r Hstep].
  destruct (RunFacts.handle_raised_snd sock r o) as [msg Hes].
  destruct (RunFacts.reconnect_sync_below_ceiling (set_pc Returned o) Hlt)
    as (pre & Hpre & Hsl & Hfu & Hp & _).
  pose proof (RunFacts.reconnect_sync_dispatched (set_pc Returned o)) as Hd.
  simpl run. rewrite Hstep.
  rewrite (surjective_pairing (handle_raised sock r o)).
  assert (Hstep2 : step json_loads (fst (handle_raised sock r o))
                     (ConnectOk sock')
                   = Some (set_pc (Receiving sock')
                             (set_reconnects 0
                                (set_socket (Some sock')
                                   (fst (handle_raised sock r o)))),
                           [LogDebug "running ws";
                            WsConnect
                              (ws_url (fst (handle_raised sock r o)))])).
  { unfold step. rewrite RunFacts.handle_raised_fst, Hp. reflexivity. }
  rewrite Hstep2. unfold then_do. simpl fst. simpl snd.
  eexists. eexists. split; [reflexivity|].
  rewrite Hes.
  rewrite !RunFacts.slept_app, !RunFacts.dispatched_app,
    !RunFacts.futures_app, Hd, Hpre.
  rewrite RunFacts.slept_app, RunFacts.futures_app, Hsl, Hfu.
  repeat split.
Qed.

(** X5: a [ws.connect] that raises, or is cancelled, is not retried: the
    task ends there, with no new task, no sleep and [_reconnects]
    untouched, and the object takes no further event. *)
Theorem failed_connect_is_not_retried (o : t) (ev : event) :
  run_pc o = Connecting ->
  ev = ConnectRaised \/ ev = ConnectCancelled ->
  exists o' es,
    step json_loads o ev = Some (o', es)
    /\ futures es = [] /\ slept es = []
    /\ _reconnects o' = _reconnects o
    /\ (forall ev', step json_loads o' ev' = None)
    /\ forall evs, run json_loads evs o' = (o', []).
Proof.
  intros Hpc [-> | ->]; unfold step; rewrite Hpc;
    eexists; eexists; (split; [reflexivity|]);
    repeat split; try (apply RunFacts.returned_is_inert; reflexivity).
Qed.

(** X9: [cancel] on a connection that waits for a frame does not end
    it.  When the [CancelledError] arrives, the loop catches it, sends no
    ping and calls no handler, fails on the cleared [_socket] and
    schedules a new task that will open the transport again. *)
Theorem cancel_in_loop_reconnects (o : t) (sock : socket) (k : task)
    (ping : option raised) :
  run_pc o = Receiving sock ->
  _conn o = Some k ->
  (_reconnects o + 1 < MAX_RECONNECTS)%Z ->
  exists o1 o2 es,
    cancel o = Some (o1, [TaskCancel (task_id k)])
    /\ step json_loads o1 (CancelledError ping) = Some (o2, es)
    /\ dispatched es = [] /\ pinged es = []
    /\ futures es = [spawned o]
    /\ run_pc o2 = Connecting
    /\ _reconnects o2 = (_reconnects o + 1)%Z.
Proof.
  intros Hpc Hk Hlt. unfold cancel. rewrite Hk.
  set (o1 := set_socket None (set_conn (Some (request_cancel k)) o)).
  assert (Hpc1 : run_pc o1 = Receiving sock) by exact Hpc.
  assert (Hs1 : _socket o1 = None) by reflexivity.
  assert (Hlt1 : (_reconnects o1 + 1 < MAX_RECONNECTS)%Z) by exact Hlt.
  exists o1.
  unfold step, send_ping, loop_head. rewrite Hpc1, Hs1.
  eexists. eexists. split; [reflexivity|]. split; [reflexivity|].
  unfold then_do. simpl fst. simpl snd.
  destruct (RunFacts.handle_raised_snd sock RaisedException o1) as [msg ->].
  destruct (RunFacts.reconnect_sync_below_ceiling (set_pc Returned o1) Hlt1)
    as (pre & Hpre & _ & Hfu & Hp & _).
  rewrite RunFacts.handle_raised_fst.
  rewrite !RunFacts.dispatched_app, !RunFacts.futures_app, !pinged_app,
    RunFacts.reconnect_sync_dispatched, reconnect_sync_pinged.
  rewrite RunFacts.reconnect_sync_reconnects.
  rewrite Hpre, RunFacts.futures_app, Hfu.
  repeat split; exact Hp.
Qed.

(** X8: called on a connection that waits for a frame, below the
    ceiling, [_reconnect] asks the loop task to stop, clears the socket,
    adds one to [_reconnects] and goes to sleep for a whole number of
    seconds between 1 and 2.  While it sleeps the loop task is still
    there: the [CancelledError] it receives makes it run
    [_reconnect_sync], which adds one more to [_reconnects] and
    schedules a task of its own before [_reconnect] wakes up to call
    [_connect]. *)
Theorem reconnect_sleeps_one_or_two_seconds (r : Q) (o : t) (k : task)
    (sock : socket) (ping : option raised) :
  run_pc o = Receiving sock ->
  _conn o = Some k ->
  (0 <= _reconnects o)%Z ->
  (_reconnects o + 2 < MAX_RECONNECTS)%Z ->
  0 <= r -> r <= 1 ->
  exists o1 w,
    _reconnect r o
      = Some (o1,
              [TaskCancel (task_id k);
               LogDebug "websocket {} reconnecting {} reconnects left"],
              Some w)
    /\ (1 <= w <= 2)%Z
    /\ _reconnects o1 = (_reconnects o + 1)%Z
    /\ _socket o1 = None /\ run_pc o1 = Receiving sock
    /\ exists o2 es,
         step json_loads o1 (CancelledError ping) = Some (o2, es)
         /\ _reconnects o2 = (_reconnects o + 2)%Z
         /\ futures es = [spawned o]
         /\ slept es = [MIN_RECONNECT_WAIT]
         /\ run_pc o2 = Connecting.
Proof.
  intros Hpc Hk H0 Hlt Hr0 Hr1.
  assert (Hltb : (_reconnects o + 1 <? MAX_RECONNECTS)%Z = true)
    by (apply Z.ltb_lt; lia).
  unfold _reconnect, cancel. rewrite Hk.
  set (o1 := set_reconnects (_reconnects o + 1)
               (set_socket None (set_conn (Some (request_cancel k)) o))).
  change (_reconnects
            (set_reconnects
               (_reconnects
                  (set_socket None (set_conn (Some (request_cancel k)) o))
                + 1)
               (set_socket None (set_conn (Some (request_cancel k)) o))))
    with (_reconnects o + 1)%Z.
  rewrite Hltb.
  exists o1. eexists. split; [reflexivity|]. split.
  { unfold _get_reconnect_wait.
    assert (Hn : (0 <= _reconnects o + 1)%Z) by lia.
    destruct (BackoffFacts.scaled_draw_range _ r Hn Hr0 Hr1) as [Hlo Hhi].
    destruct (py_round_between _ _ _ Hlo Hhi) as [H1 H2].
    unfold MAX_RECONNECT_SECONDS in *. lia. }
  split; [reflexivity|]. split; [reflexivity|]. split; [exact Hpc|].
  assert (Hpc1 : run_pc o1 = Receiving sock) by exact Hpc.
  assert (Hs1 : _socket o1 = None) by reflexivity.
  assert (Hlt1 : (_reconnects (set_pc Returned o1) + 1 < MAX_RECONNECTS)%Z).
  { simpl. lia. }
  unfold step, send_ping, loop_head. rewrite Hpc1, Hs1.
  eexists. eexists. split; [reflexivity|].
  unfold then_do. simpl fst. simpl snd.
  destruct (RunFacts.handle_raised_snd sock RaisedException o1) as [msg ->].
  destruct (RunFacts.reconnect_sync_below_ceiling (set_pc Returned o1) Hlt1)
    as (pre & Hpre & Hsl & Hfu & Hp & _).
  rewrite RunFacts.handle_raised_fst, RunFacts.reconnect_sync_reconnects.
  rewrite !RunFacts.futures_app, !RunFacts.slept_app, Hpre.
  rewrite RunFacts.futures_app, RunFacts.slept_app, Hfu, Hsl.
  split; [simpl; lia|]. repeat split. exact Hp.
Qed.

End Loop.

Lemma reconnect_sleeps_one_or_two_seconds_witness :
  exists o1 w,
    _reconnect (3 # 4) Samples.open_trade_stream
      = Some (o1,
              [TaskCancel 0;
               LogDebug "websocket {} reconnecting {} reconnects left"],
              Some w)
    /\ (1 <= w <= 2)%Z
    /\ _reconnects o1 = (0 + 1)%Z
    /\ _socket o1 = None /\ run_pc o1 = Receiving 7%nat
    /\ exists o2 es,
         step Samples.json_loads_literals o1 (CancelledError None)
           = Some (o2, es)
         /\ _reconnects o2 = (0 + 2)%Z
         /\ futures es = [1%nat]
         /\ slept es = [MIN_RECONNECT_WAIT]
         /\ run_pc o2 = Connecting.
Proof.
  apply (reconnect_sleeps_one_or_two_seconds Samples.json_loads_literals
           (3 # 4) Samples.open_trade_stream
           {| task_id := 0; cancel_requested := false;
              task_cancelled := false |} 7%nat None).
  - reflexivity.
  - reflexivity.
  - simpl. lia.
  - reflexivity.
  - discriminate.
  - discriminate.
Defined.

Lemma frames_are_dispatched_in_order_witness :
  fst (run Samples.json_loads_literals
         (map Recv ["true"; "{e:trade,"; "null"]) Samples.open_trade_stream)
  = Samples.open_trade_stream
  /\ dispatched
       (snd (run Samples.json_loads_literals
               (map Recv ["true"; "{e:trade,"; "null"])
               Samples.open_trade_stream))
     = flat_map (fun evt => match Samples.json_loads_literals evt with
                            | Loaded v => [(0%nat, v)]
                            | _ => []
                            end) ["true"; "{e:trade,"; "null"].
Proof.
  apply (frames_are_dispatched_in_order Samples.json_loads_literals
           Samples.open_trade_stream 7%nat 7%nat 0%nat);
    try reflexivity.
  intros evt [<- | [<- | [<- | []]]]; discriminate.
Defined.

Lemma idle_timeouts_only_ping_witness :
  fst (run Samples.json_loads_literals (repeat (TimeoutError None) 3)
         Samples.open_trade_stream) = Samples.open_trade_stream
  /\ pinged (snd (run Samples.json_loads_literals
                    (repeat (TimeoutError None) 3)
                    Samples.open_trade_stream)) = repeat 7%nat 3
  /\ dispatched (snd (run Samples.json_loads_literals
                        (repeat (TimeoutError None) 3)
                        Samples.open_trade_stream)) = []
  /\ futures (snd (run Samples.json_loads_literals
                     (repeat (TimeoutError None) 3)
                     Samples.open_trade_stream)) = [].
Proof.
  apply (idle_timeouts_only_ping Samples.json_loads_literals
           Samples.open_trade_stream 7%nat 7%nat 3); reflexivity.
Defined.

Lemma failure_then_connect_reopens_witness :
  exists o' es,
    run Samples.json_loads_literals [ConnectionClosed; ConnectOk 8%nat]
      Samples.open_trade_stream = (o', es)
    /\ run_pc o' = Receiving 8%nat /\ _socket o' = Some 8%nat
    /\ _reconnects o' = 0%Z
    /\ slept es = [MIN_RECONNECT_WAIT] /\ dispatched es = []
    /\ futures es = [1%nat].
Proof.
  apply (failure_then_connect_reopens Samples.json_loads_literals
           Samples.open_trade_stream 7%nat 8%nat ConnectionClosed).
  - reflexivity.
  - left. reflexivity.
  - reflexivity.
Defined.

Lemma failed_connect_is_not_retried_witness :
  exists o' es,
    step Samples.json_loads_literals
      (Samples.stream "btcusdt@trade") ConnectRaised = Some (o', es)
    /\ futures es = [] /\ slept es = []
    /\ _reconnects o' = 0%Z
    /\ (forall ev', step Samples.json_loads_literals o' ev' = None)
    /\ forall evs, run Samples.json_loads_literals evs o' = (o', []).
Proof.
  apply (failed_connect_is_not_retried Samples.json_loads_literals
           (Samples.stream "btcusdt@trade") ConnectRaised).
  - reflexivity.
  - left. reflexivity.
Defined.

Lemma cancel_in_loop_reconnects_witness :
  exists o1 o2 es,
    cancel Samples.open_trade_stream = Some (o1, [TaskCancel 0])
    /\ step Samples.json_loads_literals o1 (CancelledError None)
       = Some (o2, es)
    /\ dispatched es = [] /\ pinged es = []
    /\ futures es = [1%nat]
    /\ run_pc o2 = Connecting
    /\ _reconnects o2 = (0 + 1)%Z.
Proof.
  apply (cancel_in_loop_reconnects Samples.json_loads_literals
           Samples.open_trade_stream 7%nat
           {| task_id := 0; cancel_requested := false;
              task_cancelled := false |} None); reflexivity.
Defined.

(** X1: along every run of [_run] on a newly constructed object
    [_reconnects] is 0 or 1, whatever the transport does: every
    successful open resets it and a failed open ends the task, so the
    loop never comes near [MAX_RECONNECTS]. *)
Theorem run_reconnects_at_most_one (json_loads : string -> loaded)
    (domain path prefix : string) (coro : option callback)
    (evs : list event) :
  (0 <= _reconnects
          (fst (run json_loads evs (fst (new domain path coro prefix))))
     <= 1)%Z.
Proof.
  assert (H : counter_reset (fst (new domain path coro prefix))).
  { split; simpl; [lia | discriminate]. }
  apply (RunFacts.run_counter json_loads evs) in H. exact (proj1 H).
Qed.

End RunExtras.

(** ** More on dicts *)

Module DictExtras.
Section DictExtras.

Context {V : Type}.
Implicit Types (d : Dict.dict V) (k : string) (v : V).

Lemma get_none_keys k d : Dict.get k d = None <-> ~ In k (Dict.keys d).
Proof.
  rewrite <- DictFacts.mem_keys. unfold Dict.mem.
  destruct (Dict.get k d); split; intros H; congruence.
Qed.

Lemma get_set_same k v d : Dict.get k (Dict.set k v d) = Some v.
Proof.
  induction d as [|[k' v'] d IH]; simpl.
  - now rewrite String.eqb_refl.
  - destruct (String.eqb k k') eqn:E; simpl; rewrite E; auto.
Qed.

Lemma get_set_other k k' v d :
  k' <> k -> Dict.get k' (Dict.set k v d) = Dict.get k' d.
Proof.
  intros N. induction d as [|[k0 v0] d IH]; simpl.
  - destruct (String.eqb_spec k' k); [congruence | reflexivity].
  - destruct (String.eqb_spec k k0) as [->|N0]; simpl.
    + destruct (String.eqb_spec k' k0); [congruence | reflexivity].
    + destruct (String.eqb k' k0); [reflexivity | exact IH].
Qed.

Lemma set_fresh k v d :
  Dict.get k d = None -> Dict.set k v d = d ++ [(k, v)].
Proof.
  induction d as [|[k0 v0] d IH]; simpl; [reflexivity|].
  destruct (String.eqb k k0); [discriminate|].
  intros H. f_equal. now apply IH.
Qed.

Lemma del_set_fresh k v d :
  Dict.get k d = None -> Dict.del k (Dict.set k v d) = d.
Proof.
  induction d as [|[k0 v0] d IH]; simpl.
  - now rewrite String.eqb_refl.
  - destruct (String.eqb k k0) eqn:E; [discriminate|].
    intros H. simpl. rewrite E. f_equal. now apply IH.
Qed.

Lemma keys_del_incl k k' d :
  In k' (Dict.keys (Dict.del k d)) -> In k' (Dict.keys d).
Proof.
  induction d as [|[k0 v0] d IH]; simpl; [auto|].
  destruct (String.eqb k k0); simpl; [auto|]. intros [H|H]; auto.
Qed.

Lemma nodup_del k d :
  NoDup (Dict.keys d) -> NoDup (Dict.keys (Dict.del k d)).
Proof.
  induction d as [|[k0 v0] d IH]; simpl; intros H; [exact H|].
  inversion H as [|x l Hx Hl]; subst.
  destruct (String.eqb k k0); [exact Hl|]. simpl. constructor.
  - intros HI. apply Hx. now apply keys_del_incl in HI.
  - now apply IH.
Qed.

Lemma get_del_same k d :
  NoDup (Dict.keys d) -> Dict.get k (Dict.del k d) = None.
Proof.
  induction d as [|[k0 v0] d IH]; simpl; intros H; [reflexivity|].
  inversion H as [|x l Hx Hl]; subst.
  destruct (String.eqb_spec k k0) as [->|N].
  - now apply get_none_keys.
  - simpl. destruct (String.eqb_spec k k0); [congruence|]. now apply IH.
Qed.

Lemma get_del_other k k' d :
  k' <> k -> Dict.get k' (Dict.del k d) = Dict.get k' d.
Proof.
  intros N. induction d as [|[k0 v0] d IH]; simpl; [reflexivity|].
  destruct (String.eqb_spec k k0) as [->|N0]; simpl.
  - destruct (String.eqb_spec k' k0); [congruence | reflexivity].
  - destruct (String.eqb k' k0); [reflexivity | exact IH].
Qed.

Lemma nodup_set k v d :
  NoDup (Dict.keys d) -> NoDup (Dict.keys (Dict.set k v d)).
Proof.
  intros H. destruct (Dict.get k d) as [w|] eqn:E.
  - assert (Hk : Dict.keys (Dict.set k v d) = Dict.keys d).
    { clear H. revert E. induction d as [|[k1 v1] d IH]; simpl;
        [discriminate|].
      destruct (String.eqb k k1); simpl; [reflexivity|].
      intros E. f_equal. now apply IH. }
    now rewrite Hk.
  - rewrite set_fresh by exact E. unfold Dict.keys. rewrite map_app.
    simpl. apply NoDup_app.
    + exact H.
    + constructor; [tauto | constructor].
    + intros x Hx [<- | []]. now apply get_none_keys in E.
Qed.

End DictExtras.
End DictExtras.

(** ** More on the manager *)

Module ManagerExtras.
Import BinanceSocketManager.
Import ManagerFacts.

(** *** The registry stays sound *)

Lemma sound_new (user_timeout : Z) : sound (new user_timeout).
Proof.
  split; [constructor|]. intros k c H. discriminate H.
Qed.

Lemma sound_same_conns (m m' : t) :
  _conns m' = _conns m -> sound m -> sound m'.
Proof.
  unfold sound, unique_keys, tasks_held. intros ->. auto.
Qed.

Lemma sound_del (k : string) (m m' : t) :
  _conns m' = Dict.del k (_conns m) -> sound m -> sound m'.
Proof.
  unfold sound, unique_keys, tasks_held. intros -> [Hu Ht]. split.
  - now apply DictExtras.nodup_del.
  - intros k' c. destruct (String.eqb_spec k' k) as [->|N].
    + rewrite DictExtras.get_del_same by exact Hu. discriminate.
    + rewrite DictExtras.get_del_other by exact N. apply Ht.
Qed.

Lemma sound_set (k : string) (v : RW.t) (m m' : t) :
  _conns m' = Dict.set k v (_conns m) -> RW._conn v <> None ->
  sound m -> sound m'.
Proof.
  unfold sound, unique_keys, tasks_held. intros -> Hv [Hu Ht]. split.
  - now apply DictExtras.nodup_set.
  - intros k' c. destruct (String.eqb_spec k' k) as [->|N].
    + rewrite DictExtras.get_set_same. intros [= <-]. exact Hv.
    + rewrite DictExtras.get_set_other by exact N. apply Ht.
Qed.

Lemma new_holds_task (domain path prefix : string) (coro : option callback) :
  RW._conn (fst (RW.new domain path coro prefix)) <> None.
Proof. discriminate. Qed.

Lemma safe_ret {A} (a : A) : safe (ret a).
Proof. intros m S. exists a, m. auto. Qed.

Lemma safe_bind {A B} (c : M A) (k : A -> M B) :
  safe c -> (forall a, safe (k a)) -> safe (bind c k).
Proof.
  intros Hc Hk m S. unfold bind.
  destruct (Hc m S) as (a & m1 & -> & S1). exact (Hk a m1 S1).
Qed.

Lemma safe_gets {A} (f : t -> A) : safe (gets f).
Proof. intros m S. exists (f m), m. auto. Qed.

Lemma safe_modify (f : t -> t) :
  (forall m, sound m -> sound (f m)) -> safe (modify f).
Proof. intros H m S. exists tt, (f m). auto. Qed.

Lemma safe_start_socket (path prefix : string) (coro : option callback)
    (ty : socket_type) : safe (_start_socket path coro prefix ty).
Proof.
  unfold _start_socket. apply safe_bind; [apply safe_gets|]. intros conns.
  destruct (Dict.mem path conns); [apply safe_ret|].
  apply safe_bind; [|intros; apply safe_ret].
  apply safe_modify. intros m S.
  eapply sound_set; [reflexivity | apply new_holds_task | exact S].
Qed.

Lemma safe_start_arbitrary_socket (ws_domain path prefix : string)
    (coro : option callback) :
  safe (start_arbitrary_socket ws_domain path coro prefix).
Proof.
  unfold start_arbitrary_socket. apply safe_bind; [apply safe_gets|].
  intros conns. destruct (Dict.mem path conns); [apply safe_ret|].
  apply safe_bind; [|intros; apply safe_ret].
  apply safe_modify. intros m S.
  eapply sound_set; [reflexivity | apply new_holds_task | exact S].
Qed.

Lemma safe_start_socket_timer (ty : socket_type) :
  safe (_start_socket_timer ty).
Proof.
  apply safe_modify. intros m S. eapply sound_same_conns; [|exact S].
  reflexivity.
Qed.

Lemma safe_stop_socket (conn_key : string) : safe (stop_socket conn_key).
Proof.
  intros m S. destruct (Dict.get conn_key (_conns m)) as [c|] eqn:Hg.
  - destruct (stop_socket_present conn_key c m Hg (proj2 S _ _ Hg))
      as (m' & -> & Hd & _).
    exists tt, m'. split; [reflexivity|]. exact (sound_del _ _ _ Hd S).
  - exists tt, m. split; [now apply stop_socket_absent | exact S].
Qed.

Lemma safe_check_loop (listen_key : string) (l : list string) :
  safe (check_loop listen_key l).
Proof.
  induction l as [|k l IH]; simpl; [apply safe_ret|].
  destruct (has_listen_key k listen_key); [apply safe_stop_socket | exact IH].
Qed.

Lemma safe_check_account_socket_open (listen_key : string) :
  safe (_check_account_socket_open listen_key).
Proof.
  unfold _check_account_socket_open.
  destruct (negb (str_truthy listen_key)); [apply safe_ret|].
  apply safe_bind; [apply safe_gets|]. intros conns. apply safe_check_loop.
Qed.

Lemma safe_start_account_socket (ty : socket_type) (listen_key : string)
    (cb : option callback) : safe (_start_account_socket ty listen_key cb).
Proof.
  unfold _start_account_socket.
  apply safe_bind; [apply safe_check_account_socket_open|]. intros _.
  apply safe_bind.
  { apply safe_modify. intros m S. eapply sound_same_conns; [|exact S].
    reflexivity. }
  intros _. apply safe_bind.
  { apply safe_modify. intros m S. eapply sound_same_conns; [|exact S].
    reflexivity. }
  intros _. apply safe_bind; [apply safe_start_socket|]. intros r.
  apply safe_bind; [|intros; apply safe_ret].
  destruct (started_truthy r); [apply safe_start_socket_timer | apply safe_ret].
Qed.

Lemma safe_emit (e : effect) : safe (modify (emit e)).
Proof.
  apply safe_modify. intros m S. eapply sound_same_conns; [|exact S].
  reflexivity.
Qed.

Lemma safe_keepalive_account_socket (ty : socket_type)
    (listen_key : string) : safe (_keepalive_account_socket ty listen_key).
Proof.
  unfold _keepalive_account_socket.
  apply safe_bind; [apply safe_emit|]. intros _.
  apply safe_bind; [apply safe_gets|]. intros cb.
  apply safe_bind; [apply safe_gets|]. intros [k|].
  - destruct (String.eqb listen_key k); [apply safe_start_socket_timer|].
    apply safe_bind; [apply safe_start_account_socket|].
    intros; apply safe_ret.
  - apply safe_bind; [apply safe_start_account_socket|].
    intros; apply safe_ret.
Qed.

Lemma safe_close_loop (keys : list string) : safe (close_loop keys).
Proof.
  induction keys as [|k keys IH]; simpl; [apply safe_ret|].
  apply safe_bind; [apply safe_stop_socket | intros; exact IH].
Qed.

Lemma safe_close (keys : list string) : safe (close keys).
Proof.
  unfold close. apply safe_bind; [apply safe_close_loop|]. intros _.
  apply safe_modify. intros m S. split; [constructor|].
  intros k c H. discriminate H.
Qed.

Lemma safe_start_account_socket_of (ty : socket_type)
    (cb : option callback) (listen_key : string) :
  safe (start_account_socket_of ty cb listen_key).
Proof.
  destruct ty; simpl;
    (apply safe_bind; [apply safe_emit|]; intros _;
     apply safe_start_account_socket).
Qed.

(** X10: a registry with pairwise different keys whose objects all hold
    their task stays so under every operation of the manager, and from
    such a registry none of them raises: not the start and stop of a
    stream, not the start or the renewal of an account socket, not
    [close]. *)
Theorem operations_are_safe :
  (forall path prefix coro ty, safe (_start_socket path coro prefix ty))
  /\ (forall ws_domain path prefix coro,
        safe (start_arbitrary_socket ws_domain path coro prefix))
  /\ (forall conn_key, safe (stop_socket conn_key))
  /\ (forall ty cb listen_key,
        safe (start_account_socket_of ty cb listen_key))
  /\ (forall ty listen_key,
        safe (_keepalive_account_socket ty listen_key))
  /\ (forall keys, safe (close keys)).
Proof.
  split; [intros; apply safe_start_socket|].
  split; [intros; apply safe_start_arbitrary_socket|].
  split; [intros; apply safe_stop_socket|].
  split; [intros; apply safe_start_account_socket_of|].
  split; [intros; apply safe_keepalive_account_socket|].
  intros; apply safe_close.
Qed.

Lemma operations_are_safe_witness :
  exists a m',
    close [Samples.listen_key_A; "btcusdt@trade"] Samples.user_session
      = Ok a m'
    /\ sound m'.
Proof.
  refine (proj2 (proj2 (proj2 (proj2 (proj2 operations_are_safe))))
            [Samples.listen_key_A; "btcusdt@trade"] Samples.user_session _).
  assert (E : _conns Samples.user_session
              = [("btcusdt@trade",
                  fst (RW.new STREAM_URL "btcusdt@trade" (Some 0%nat) "ws/"));
                 (Samples.listen_key_A,
                  fst (RW.new STREAM_URL Samples.listen_key_A (Some 1%nat)
                         "ws/"))])
    by (vm_compute; reflexivity).
  split.
  - unfold unique_keys. rewrite E. vm_compute.
    constructor; [intros [H|[]]; discriminate H|].
    constructor; [intros []|]. constructor.
  - intros k c. rewrite E. simpl.
    destruct (String.eqb k "btcusdt@trade");
      [intros [= <-]; discriminate|].
    destruct (String.eqb k Samples.listen_key_A);
      [intros [= <-]; discriminate | discriminate].
Defined.

(** *** Starting and stopping a stream *)

Lemma mem_false_get (k : string) (d : Dict.dict RW.t) :
  Dict.mem k d = false -> Dict.get k d = None.
Proof. unfold Dict.mem. destruct (Dict.get k d); [discriminate | auto]. Qed.

Lemma start_socket_fresh (m : t) (path prefix : string)
    (coro : option callback) (ty : socket_type) :
  Dict.mem path (_conns m) = false ->
  _start_socket path coro prefix ty m
  = Ok (ConnKey path)
      (emit (Construct path)
         (set_conns
            (Dict.set path
               (fst (RW.new (socket_type_url_mapping ty) path coro prefix))
               (_conns m)) m)).
Proof.
  intros H. unfold _start_socket. run_m. rewrite H. reflexivity.
Qed.

(** X11: starting a stream under a key that is not registered returns
    the key and adds one entry at the end of the registry; the key then
    looks up the new object, bound to the URL of its socket type, every
    other key looks up what it did, and the session records are
    untouched. *)
Theorem start_socket_registers (m : t) (path prefix : string)
    (coro : option callback) (ty : socket_type) :
  Dict.mem path (_conns m) = false ->
  exists m',
    _start_socket path coro prefix ty m = Ok (ConnKey path) m'
    /\ _conns m'
       = _conns m
         ++ [(path,
              fst (RW.new (socket_type_url_mapping ty) path coro prefix))]
    /\ Dict.get path (_conns m')
       = Some (fst (RW.new (socket_type_url_mapping ty) path coro prefix))
    /\ (forall k, k <> path ->
          Dict.get k (_conns m') = Dict.get k (_conns m))
    /\ _listen_keys m' = _listen_keys m /\ _timers m' = _timers m
    /\ trace m' = trace m ++ [Construct path].
Proof.
  intros H. rewrite (start_socket_fresh m path prefix coro ty H).
  eexists. split; [reflexivity|]. simpl.
  split; [apply DictExtras.set_fresh; now apply mem_false_get|].
  split; [apply DictExtras.get_set_same|].
  split; [intros k N; now apply DictExtras.get_set_other|].
  auto.
Qed.

Lemma start_socket_registers_witness :
  exists m',
    _start_socket "!ticker@arr" (Some 2%nat) "ws/" perp Samples.user_session
      = Ok (ConnKey "!ticker@arr") m'
    /\ _conns m'
       = _conns Samples.user_session
         ++ [("!ticker@arr",
              fst (RW.new (socket_type_url_mapping perp) "!ticker@arr"
                     (Some 2%nat) "ws/"))]
    /\ Dict.get "!ticker@arr" (_conns m')
       = Some (fst (RW.new (socket_type_url_mapping perp) "!ticker@arr"
                      (Some 2%nat) "ws/"))
    /\ (forall k, k <> "!ticker@arr" ->
          Dict.get k (_conns m') = Dict.get k (_conns Samples.user_session))
    /\ _listen_keys m' = _listen_keys Samples.user_session
    /\ _timers m' = _timers Samples.user_session
    /\ trace m' = trace Samples.user_session ++ [Construct "!ticker@arr"].
Proof.
  apply (start_socket_registers Samples.user_session "!ticker@arr" "ws/"
           (Some 2%nat) perp).
  reflexivity.
Defined.

(** X12: a stream started under a fresh key and then stopped leaves the
    registry exactly as it was before the start. *)
Theorem start_then_stop_restores_registry (m : t) (path prefix : string)
    (coro : option callback) (ty : socket_type) :
  Dict.mem path (_conns m) = false ->
  exists m1 m2,
    _start_socket path coro prefix ty m = Ok (ConnKey path) m1
    /\ stop_socket path m1 = Ok tt m2
    /\ _conns m2 = _conns m.
Proof.
  intros H. rewrite (start_socket_fresh m path prefix coro ty H).
  eexists. 
  match goal with
  | |- exists m2, Ok _ ?m1 = _ /\ _ =>
      destruct (stop_socket_present path
                  (fst (RW.new (socket_type_url_mapping ty) path coro prefix))
                  m1) as (m2 & Hs & Hd & _)
  end.
  - simpl. apply DictExtras.get_set_same.
  - apply new_holds_task.
  - exists m2. split; [reflexivity|]. split; [exact Hs|].
    rewrite Hd. simpl. apply DictExtras.del_set_fresh.
    now apply mem_false_get.
Qed.

Lemma start_then_stop_restores_registry_witness :
  exists m1 m2,
    _start_socket "!ticker@arr" (Some 2%nat) "ws/" user Samples.user_session
      = Ok (ConnKey "!ticker@arr") m1
    /\ stop_socket "!ticker@arr" m1 = Ok tt m2
    /\ _conns m2 = _conns Samples.user_session.
Proof.
  apply (start_then_stop_restores_registry Samples.user_session
           "!ticker@arr" "ws/" (Some 2%nat) user).
  reflexivity.
Defined.

(** X13: stopping is idempotent: once [stop_socket] has returned, a
    second [stop_socket] of the same key returns without touching the
    manager; in particular it closes no session and makes no call. *)
Theorem stop_socket_twice (m m' : t) (conn_key : string) :
  unique_keys m ->
  stop_socket conn_key m = Ok tt m' ->
  stop_socket conn_key m' = Ok tt m'.
Proof.
  intros Hu Hs. apply stop_socket_absent.
  destruct (Dict.get conn_key (_conns m)) as [c|] eqn:Hg.
  - destruct (RW._conn c) as [k|] eqn:Hk.
    + destruct (stop_socket_present conn_key c m Hg) as (m2 & E & Hd & _);
        [congruence|].
      rewrite E in Hs. injection Hs as <-. rewrite Hd.
      now apply DictExtras.get_del_same.
    + exfalso. revert Hs. unfold stop_socket. run_m. rewrite Hg.
      unfold RW.cancel. rewrite Hk. discriminate.
  - rewrite (stop_socket_absent conn_key m Hg) in Hs.
    injection Hs as <-. exact Hg.
Qed.

Lemma stop_socket_twice_witness :
  stop_socket Samples.listen_key_A
    (final (stop_socket Samples.listen_key_A Samples.user_session))
  = Ok tt (final (stop_socket Samples.listen_key_A Samples.user_session)).
Proof.
  apply (stop_socket_twice Samples.user_session
           (final (stop_socket Samples.listen_key_A Samples.user_session))
           Samples.listen_key_A).
  - unfold unique_keys. vm_compute.
    constructor; [intros [H|[]]; discriminate H|].
    constructor; [intros []|]. constructor.
  - vm_compute. reflexivity.
Defined.

(** X14: [close] empties the registry of a sound manager and returns,
    in whatever order the set of keys is visited. *)
Theorem close_empties_registry (m : t) (keys : list string) :
  sound m ->
  exists m', close keys m = Ok tt m' /\ _conns m' = [].
Proof.
  intros S. unfold close, bind.
  destruct (safe_close_loop keys m S) as ([] & m1 & -> & _).
  eexists. split; reflexivity.
Qed.

Lemma close_empties_registry_witness :
  exists m',
    close [Samples.listen_key_B; "btcusdt@trade"]
      (final (start_trade_socket "BTCUSDT" (Some 0%nat)
                (new DEFAULT_USER_TIMEOUT))) = Ok tt m'
    /\ _conns m' = [].
Proof.
  apply (close_empties_registry
           (final (start_trade_socket "BTCUSDT" (Some 0%nat)
                     (new DEFAULT_USER_TIMEOUT)))
           [Samples.listen_key_B; "btcusdt@trade"]).
  assert (E : _conns (final (start_trade_socket "BTCUSDT" (Some 0%nat)
                              (new DEFAULT_USER_TIMEOUT)))
              = [("btcusdt@trade", Samples.stream "btcusdt@trade")])
    by (vm_compute; reflexivity).
  split.
  - unfold unique_keys. rewrite E. simpl.
    constructor; [intros []|]. constructor.
  - intros k c. rewrite E. simpl.
    destruct (String.eqb k "btcusdt@trade"); [|discriminate].
    intros [= <-]. discriminate.
Defined.

(** *** The start methods of the market streams *)

Lemma start_socket_active (m : t) (path prefix : string)
    (coro : option callback) (ty : socket_type) :
  Dict.mem path (_conns m) = true ->
  _start_socket path coro prefix ty m = Ok PyFalse m.
Proof.
  intros H. unfold _start_socket. run_m. rewrite H. reflexivity.
Qed.

Lemma start_and_return (path prefix : string) (coro : option callback)
    (ty : socket_type) :
  returns_key (_start_socket path coro prefix ty ;; ret (ConnKey path)) path.
Proof.
  intros m. unfold bind.
  destruct (Dict.mem path (_conns m)) eqn:E.
  - rewrite (start_socket_active m path prefix coro ty E).
    exists m. auto.
  - rewrite (start_socket_fresh m path prefix coro ty E).
    eexists. split; [reflexivity|]. split; [|discriminate].
    simpl. rewrite DictFacts.mem_set, String.eqb_refl. reflexivity.
Qed.

(** X15: every start method of a market stream returns its connection
    key in every state and leaves the key registered; when the key was
    registered before the call, the call changes nothing. *)
Theorem market_starts_return_their_key :
  (forall symbol coro depth ms,
     returns_key (start_depth_socket symbol coro depth ms)
       (if (ms =? 1000)%Z
        then (lower symbol ++ "@depth") ++ str_of_int depth
        else (lower symbol ++ "@depth") ++ str_of_int depth ++ "@"
             ++ str_of_int ms ++ "ms")%string)
  /\ (forall symbol coro interval,
        returns_key (start_kline_socket symbol coro interval)
          (lower symbol ++ "@kline_" ++ interval)%string)
  /\ (forall coro update_time,
        returns_key (start_miniticker_socket coro update_time)
          ("!miniTicker@arr@" ++ str_of_int update_time ++ "ms")%string)
  /\ (forall symbol coro,
        returns_key (start_trade_socket symbol coro)
          (lower symbol ++ "@trade")%string)
  /\ (forall symbol coro,
        returns_key (start_aggtrade_socket symbol coro)
          (lower symbol ++ "@aggTrade")%string)
  /\ (forall symbol coro,
        returns_key (start_symbol_ticker_socket symbol coro)
          (lower symbol ++ "@ticker")%string)
  /\ (forall coro, returns_key (start_ticker_socket coro) "!ticker@arr")
  /\ (forall coro,
        returns_key (start_allticker_futures_socket coro) "!bookTicker")
  /\ (forall symbol coro,
        returns_key (start_symbol_ticker_futures_socket symbol coro)
          (lower symbol ++ "@bookTicker")%string)
  /\ (forall symbol coro,
        returns_key (start_symbol_book_ticker_socket symbol coro)
          (lower symbol ++ "@bookTicker")%string)
  /\ (forall coro, returns_key (start_book_ticker_socket coro) "!bookTicker")
  /\ (forall streams coro,
        returns_key (start_multiplex_socket streams coro)
          ("streams=" ++ String.concat "/" streams)%string).
Proof.
  split.
  { intros symbol coro depth ms. unfold start_depth_socket.
    destruct (ms =? 1000)%Z; apply start_and_return. }
  split; [intros symbol coro interval; apply start_and_return|].
  split; [intros coro update_time; apply start_and_return|].
  split; [intros symbol coro; apply start_and_return|].
  split; [intros symbol coro; apply start_and_return|].
  split; [intros symbol coro; apply start_and_return|].
  split; [intros coro; exact (start_and_return "!ticker@arr" "ws/" coro user)|].
  split; [intros coro; exact (start_and_return "!bookTicker" "ws/" coro perp)|].
  split; [intros symbol coro; apply start_and_return|].
  split; [intros symbol coro; apply start_and_return|].
  split; [intros coro; exact (start_and_return "!bookTicker" "ws/" coro user)|].
  intros streams coro; apply start_and_return.
Qed.

Lemma market_starts_return_their_key_witness :
  exists m',
    start_depth_socket "BNBBTC" (Some 2%nat) 5 1000 Samples.user_session
      = Ok (ConnKey "bnbbtc@depth5") m'
    /\ Dict.mem "bnbbtc@depth5" (_conns m') = true
    /\ (Dict.mem "bnbbtc@depth5" (_conns Samples.user_session) = true ->
        m' = Samples.user_session).
Proof.
  exact (proj1 market_starts_return_their_key "BNBBTC" (Some 2%nat) 5%Z
           1000%Z Samples.user_session).
Defined.

(** X16: the book-ticker stream of a symbol has the same connection key
    on the spot and on the futures endpoint, so only the one started
    first is opened: the second start returns the key, changes nothing,
    and the key stays bound to the URL of the first. *)
Theorem book_ticker_streams_share_a_key (m : t) (symbol : string)
    (c1 c2 : option callback) :
  Dict.mem (lower symbol ++ "@bookTicker") (_conns m) = false ->
  (exists m1,
     start_symbol_book_ticker_socket symbol c1 m
       = Ok (ConnKey (lower symbol ++ "@bookTicker")) m1
     /\ start_symbol_ticker_futures_socket symbol c2 m1
        = Ok (ConnKey (lower symbol ++ "@bookTicker")) m1
     /\ option_map RW.ws_domain
          (Dict.get (lower symbol ++ "@bookTicker") (_conns m1))
        = Some STREAM_URL)
  /\ (exists m1,
        start_symbol_ticker_futures_socket symbol c1 m
          = Ok (ConnKey (lower symbol ++ "@bookTicker")) m1
        /\ start_symbol_book_ticker_socket symbol c2 m1
           = Ok (ConnKey (lower symbol ++ "@bookTicker")) m1
        /\ option_map RW.ws_domain
             (Dict.get (lower symbol ++ "@bookTicker") (_conns m1))
           = Some FSTREAM_URL).
Proof.
  intros H.
  unfold start_symbol_book_ticker_socket,
    start_symbol_ticker_futures_socket.
  split; unfold bind at 1; rewrite start_socket_fresh by exact H;
    eexists; (split; [reflexivity|]); split.
  - unfold bind. rewrite start_socket_active; [reflexivity|].
    simpl. rewrite DictFacts.mem_set, String.eqb_refl. reflexivity.
  - simpl. rewrite DictExtras.get_set_same. reflexivity.
  - unfold bind. rewrite start_socket_active; [reflexivity|].
    simpl. rewrite DictFacts.mem_set, String.eqb_refl. reflexivity.
  - simpl. rewrite DictExtras.get_set_same. reflexivity.
Qed.

Lemma book_ticker_streams_share_a_key_witness :
  exists m1,
    start_symbol_book_ticker_socket "BNBUSDT" (Some 2%nat)
      Samples.user_session = Ok (ConnKey (lower "BNBUSDT" ++ "@bookTicker")) m1
    /\ start_symbol_ticker_futures_socket "BNBUSDT" (Some 3%nat) m1
       = Ok (ConnKey (lower "BNBUSDT" ++ "@bookTicker")) m1
    /\ option_map RW.ws_domain
         (Dict.get (lower "BNBUSDT" ++ "@bookTicker") (_conns m1))
       = Some STREAM_URL.
Proof.
  refine (proj1 (book_ticker_streams_share_a_key Samples.user_session
                   "BNBUSDT" (Some 2%nat) (Some 3%nat) _)).
  vm_compute. reflexivity.
Defined.

(** *** Account sockets *)

Lemma check_loop_some_match (listen_key : string) (l : list string)
    (m : t) :
  (exists k, In k l /\ has_listen_key k listen_key = true) ->
  exists k', In k' l /\ has_listen_key k' listen_key = true
             /\ check_loop listen_key l m = stop_socket k' m.
Proof.
  induction l as [|k l IH]; simpl; intros (k0 & Hin & Hk0); [tauto|].
  destruct (has_listen_key k listen_key) eqn:E.
  - exists k. auto.
  - destruct Hin as [<- | Hin]; [congruence|].
    destruct IH as (k' & H1 & H2 & H3); [eauto|].
    exists k'. auto.
Qed.

(** X17: a renewal that gets the listen key already recorded only
    re-arms the timer of the type: the registry, the listen keys and
    the callbacks are untouched, and the only call made is the one that
    fetched the key. *)
Theorem keepalive_with_same_key_rearms_timer (ty : socket_type)
    (listen_key : string) (m : t) :
  lookup ty (_listen_keys m) = Some listen_key ->
  exists m',
    _keepalive_account_socket ty listen_key m = Ok tt m'
    /\ _conns m' = _conns m
    /\ _listen_keys m' = _listen_keys m
    /\ _account_callbacks m' = _account_callbacks m
    /\ lookup ty (_timers m') = Some (next_handle m)
    /\ trace m'
       = trace m ++ [ClientCall (get_listen_key_method ty) None;
                     CallLater (_user_timeout m) ty (next_handle m)].
Proof.
  intros H. unfold _keepalive_account_socket.
  unfold bind at 1, modify at 1. unfold bind at 1, gets at 1.
  unfold bind at 1, gets at 1.
  change (lookup ty (_listen_keys (emit ?e m)))
    with (lookup ty (_listen_keys m)).
  rewrite H, String.eqb_refl. unfold _start_socket_timer, modify.
  eexists. split; [reflexivity|]. simpl.
  rewrite lookup_update_same, <- app_assoc. repeat split.
Qed.

Lemma keepalive_with_same_key_rearms_timer_witness :
  exists m',
    _keepalive_account_socket user Samples.listen_key_A
      Samples.user_session = Ok tt m'
    /\ _conns m' = _conns Samples.user_session
    /\ _listen_keys m' = _listen_keys Samples.user_session
    /\ _account_callbacks m' = _account_callbacks Samples.user_session
    /\ lookup user (_timers m') = Some (next_handle Samples.user_session)
    /\ trace m'
       = trace Samples.user_session
         ++ [ClientCall (get_listen_key_method user) None;
             CallLater (_user_timeout Samples.user_session) user
               (next_handle Samples.user_session)].
Proof.
  apply (keepalive_with_same_key_rearms_timer user Samples.listen_key_A
           Samples.user_session).
  vm_compute. reflexivity.
Defined.

Lemma check_account_socket_open_no_carrier (listen_key : string) (m : t) :
  (forall k, In k (Dict.keys (_conns m)) ->
             has_listen_key k listen_key = false) ->
  _check_account_socket_open listen_key m = Ok tt m.
Proof.
  intros Hno. unfold _check_account_socket_open.
  destruct (negb (str_truthy listen_key)); [reflexivity|].
  unfold bind, gets. now apply check_loop_no_match.
Qed.

Lemma start_account_socket_fresh (ty : socket_type) (listen_key : string)
    (cb : option callback) (m : t) :
  str_truthy listen_key = true ->
  (forall k, In k (Dict.keys (_conns m)) ->
             has_listen_key k listen_key = false) ->
  Dict.mem listen_key (_conns m) = false ->
  exists m',
    _start_account_socket ty listen_key cb m = Ok (ConnKey listen_key) m'
    /\ _conns m'
       = _conns m
         ++ [(listen_key,
              fst (RW.new (socket_type_url_mapping ty) listen_key cb "ws/"))]
    /\ lookup ty (_listen_keys m') = Some listen_key
    /\ lookup ty (_account_callbacks m') = cb
    /\ lookup ty (_timers m') = Some (next_handle m)
    /\ trace m'
       = trace m ++ [Construct listen_key;
                     CallLater (_user_timeout m) ty (next_handle m)].
Proof.
  intros Ht Hno Hfresh. unfold _start_account_socket.
  unfold bind at 1.
  rewrite check_account_socket_open_no_carrier by exact Hno.
  unfold bind at 1, modify at 1. unfold bind at 1, modify at 1.
  unfold bind at 1. rewrite start_socket_fresh by exact Hfresh.
  unfold started_truthy. rewrite Ht.
  unfold bind, _start_socket_timer, modify, ret.
  eexists. split; [reflexivity|]. simpl.
  rewrite !lookup_update_same, <- app_assoc.
  split; [apply DictExtras.set_fresh; now apply mem_false_get|].
  repeat split.
Qed.

(** X18: started with a non-empty listen key that no registered key
    carries and that is not itself registered, the account socket of a
    type fetches the key, registers one new object under it at the URL
    of the type, records key and callback for the type and arms the
    renewal timer, in that order. *)
Theorem account_socket_starts_on_fresh_key (ty : socket_type)
    (listen_key : string) (cb : option callback) (m : t) :
  str_truthy listen_key = true ->
  (forall k, In k (Dict.keys (_conns m)) ->
             has_listen_key k listen_key = false) ->
  Dict.mem listen_key (_conns m) = false ->
  exists m',
    start_account_socket_of ty cb listen_key m = Ok (ConnKey listen_key) m'
    /\ _conns m'
       = _conns m
         ++ [(listen_key,
              fst (RW.new (socket_type_url_mapping ty) listen_key cb "ws/"))]
    /\ lookup ty (_listen_keys m') = Some listen_key
    /\ lookup ty (_account_callbacks m') = cb
    /\ lookup ty (_timers m') = Some (next_handle m)
    /\ trace m'
       = trace m ++ [ClientCall (get_listen_key_method ty) None;
                     Construct listen_key;
                     CallLater (_user_timeout m) ty (next_handle m)].
Proof.
  intros Ht Hno Hfresh.
  assert (E : start_account_socket_of ty cb listen_key m
              = _start_account_socket ty listen_key cb
                  (emit (ClientCall (get_listen_key_method ty) None) m)).
  { destruct ty; reflexivity. }
  rewrite E.
  destruct (start_account_socket_fresh ty listen_key cb
              (emit (ClientCall (get_listen_key_method ty) None) m)
              Ht Hno Hfresh) as (m' & -> & H1 & H2 & H3 & H4 & H5).
  exists m'. split; [reflexivity|]. simpl in *.
  rewrite H5, <- app_assoc. auto.
Qed.

Lemma account_socket_starts_on_fresh_key_witness :
  exists m',
    start_account_socket_of perp (Some 5%nat) Samples.listen_key_B
      Samples.user_session = Ok (ConnKey Samples.listen_key_B) m'
    /\ _conns m'
       = _conns Samples.user_session
         ++ [(Samples.listen_key_B,
              fst (RW.new (socket_type_url_mapping perp)
                     Samples.listen_key_B (Some 5%nat) "ws/"))]
    /\ lookup perp (_listen_keys m') = Some Samples.listen_key_B
    /\ lookup perp (_account_callbacks m') = Some 5%nat
    /\ lookup perp (_timers m') = Some (next_handle Samples.user_session)
    /\ trace m'
       = trace Samples.user_session
         ++ [ClientCall (get_listen_key_method perp) None;
             Construct Samples.listen_key_B;
             CallLater (_user_timeout Samples.user_session) perp
               (next_handle Samples.user_session)].
Proof.
  apply (account_socket_starts_on_fresh_key perp Samples.listen_key_B
           (Some 5%nat) Samples.user_session).
  - reflexivity.
  - assert (E : Dict.keys (_conns Samples.user_session)
                = ["btcusdt@trade"; Samples.listen_key_A])
      by (vm_compute; reflexivity).
    rewrite E. intros k [<- | [<- | []]]; vm_compute; reflexivity.
  - vm_compute. reflexivity.
Defined.

Lemma stop_account_socket_full (ty : socket_type) (m : t) :
  opt_truthy (lookup ty (_listen_keys m)) = true ->
  exists m' pre,
    _stop_account_socket ty m = Ok tt m'
    /\ _conns m' = _conns m
    /\ _listen_keys m' = update ty None (_listen_keys m)
    /\ (forall ty', lookup ty' (_timers m')
                    = if socket_type_eqb ty' ty then None
                      else lookup ty' (_timers m))
    /\ trace m'
       = trace m
         ++ pre ++ [ClientCall (stream_close_method ty)
                      (lookup ty (_listen_keys m))].
Proof.
  intros H. unfold _stop_account_socket. run_m. rewrite H. simpl.
  destruct (lookup ty (_timers m)) as [h|] eqn:Et; simpl.
  - eexists. exists [TimerCancel h]. split; [reflexivity|]. simpl.
    rewrite <- app_assoc. repeat split.
    intros ty'. destruct (socket_type_eqb_spec ty' ty) as [->|N].
    + apply lookup_update_same.
    + apply lookup_update_other. congruence.
  - eexists. exists []. split; [reflexivity|]. simpl. repeat split.
    intros ty'. destruct (socket_type_eqb_spec ty' ty) as [->|N];
      [exact Et | reflexivity].
Qed.

Lemma carries_session_truthy (conn_key : string) (ty : socket_type)
    (m : t) :
  carries_session conn_key ty m = true ->
  opt_truthy (lookup ty (_listen_keys m)) = true.
Proof.
  unfold carries_session. destruct (lookup ty (_listen_keys m)) as [k|];
    [|discriminate].
  simpl. now intros H%andb_true_iff.
Qed.

Lemma stop_socket_loop_step (conn_key : string) (key : socket_type)
    (m : t) :
  match lookup key (_listen_keys m) with
  | Some k => if str_truthy k && has_listen_key conn_key k
              then _stop_account_socket key else ret tt
  | None => ret tt
  end
  = if carries_session conn_key key m
    then _stop_account_socket key else ret tt.
Proof.
  unfold carries_session. destruct (lookup key (_listen_keys m));
    reflexivity.
Qed.

(** The loop of [stop_socket], type by type. *)
Lemma stop_socket_loop_full (conn_key : string) (tys : list socket_type)
    (m : t) :
  exists m' suffix,
    stop_socket_loop conn_key tys m = Ok tt m'
    /\ _conns m' = _conns m
    /\ trace m' = trace m ++ suffix
    /\ forall ty,
         if existsb (socket_type_eqb ty) tys
            && carries_session conn_key ty m
         then lookup ty (_listen_keys m') = None
              /\ lookup ty (_timers m') = None
              /\ In (ClientCall (stream_close_method ty)
                       (lookup ty (_listen_keys m))) suffix
         else lookup ty (_listen_keys m') = lookup ty (_listen_keys m)
              /\ lookup ty (_timers m') = lookup ty (_timers m).
Proof.
  revert m. induction tys as [|key rest IH]; intros m.
  - exists m, []. simpl. rewrite app_nil_r. repeat split.
  - simpl stop_socket_loop. unfold bind at 1, gets at 1. unfold bind at 1.
    rewrite stop_socket_loop_step.
    destruct (carries_session conn_key key m) eqn:Ec.
    + destruct (stop_account_socket_full key m
                  (carries_session_truthy _ _ _ Ec))
        as (m1 & pre & -> & Hc1 & Hl1 & Ht1 & Htr1).
      destruct (IH m1) as (m' & suf & -> & Hc & Htr & Hty).
      exists m',
        (pre ++ ClientCall (stream_close_method key)
                  (lookup key (_listen_keys m)) :: suf).
      split; [reflexivity|].
      split; [congruence|].
      split; [rewrite Htr, Htr1, <- !app_assoc; reflexivity|].
      intros ty. specialize (Hty ty). simpl existsb.
      destruct (socket_type_eqb_spec ty key) as [->|N]; simpl orb.
      * rewrite Ec. simpl andb.
        assert (Ec1 : carries_session conn_key key m1 = false).
        { unfold carries_session. rewrite Hl1, lookup_update_same.
          reflexivity. }
        rewrite Ec1, andb_false_r in Hty. destruct Hty as [Ha Hb].
        rewrite Ha, Hb, Hl1, lookup_update_same, Ht1.
        destruct (socket_type_eqb_spec key key); [|congruence].
        repeat split. apply in_or_app. right. now left.
      * assert (El : lookup ty (_listen_keys m1)
                     = lookup ty (_listen_keys m)).
        { rewrite Hl1. apply lookup_update_other. congruence. }
        assert (Et : lookup ty (_timers m1) = lookup ty (_timers m)).
        { rewrite Ht1. destruct (socket_type_eqb_spec ty key); congruence. }
        assert (Ecs : carries_session conn_key ty m1
                      = carries_session conn_key ty m).
        { unfold carries_session. now rewrite El. }
        rewrite Ecs, El, Et in Hty.
        destruct (existsb (socket_type_eqb ty) rest
                  && carries_session conn_key ty m).
        -- destruct Hty as (Ha & Hb & Hin). repeat split; auto.
           apply in_or_app. right. now right.
        -- exact Hty.
    + unfold ret at 1.
      destruct (IH m) as (m' & suf & -> & Hc & Htr & Hty).
      exists m', suf. repeat split; auto.
      intros ty. specialize (Hty ty). simpl existsb.
      destruct (socket_type_eqb_spec ty key) as [->|N]; simpl orb.
      * rewrite Ec, andb_false_r in Hty. rewrite Ec. exact Hty.
      * exact Hty.
Qed.

(** X19: stopping a registered stream cancels it and takes its key out
    of the registry; for every socket type whose recorded listen key the
    stopped key carries, the timer of the type is dropped, the listen
    key is closed through the client and forgotten; every other type
    keeps its listen key and its timer. *)
Theorem stop_socket_releases_carried_sessions (conn_key : string)
    (c : RW.t) (m : t) :
  Dict.get conn_key (_conns m) = Some c ->
  RW._conn c <> None ->
  exists m' calls,
    stop_socket conn_key m = Ok tt m'
    /\ _conns m' = Dict.del conn_key (_conns m)
    /\ trace m' = trace m ++ Cancel conn_key :: calls
    /\ forall ty,
         if carries_session conn_key ty m
         then lookup ty (_listen_keys m') = None
              /\ lookup ty (_timers m') = None
              /\ In (ClientCall (stream_close_method ty)
                       (lookup ty (_listen_keys m))) calls
         else lookup ty (_listen_keys m') = lookup ty (_listen_keys m)
              /\ lookup ty (_timers m') = lookup ty (_timers m).
Proof.
  intros Hg Hc. unfold stop_socket. unfold bind at 1, gets at 1.
  rewrite Hg. destruct (cancel_some c Hc) as (c' & e & ->).
  unfold bind at 1, modify at 1.
  destruct (stop_socket_loop_full conn_key socket_types
              (emit (Cancel conn_key)
                 (set_conns (Dict.del conn_key (_conns m)) m)))
    as (m' & calls & -> & H1 & H2 & H3).
  exists m', calls. split; [reflexivity|]. split; [exact H1|].
  split; [rewrite H2; simpl; rewrite <- app_assoc; reflexivity|].
  intros ty. specialize (H3 ty).
  replace (existsb (socket_type_eqb ty) socket_types) with true in H3
    by (destruct ty; reflexivity).
  exact H3.
Qed.

Lemma stop_socket_releases_carried_sessions_witness :
  exists m' calls,
    stop_socket Samples.listen_key_A Samples.user_session = Ok tt m'
    /\ _conns m'
       = Dict.del Samples.listen_key_A (_conns Samples.user_session)
    /\ trace m'
       = trace Samples.user_session ++ Cancel Samples.listen_key_A :: calls
    /\ forall ty,
         if carries_session Samples.listen_key_A ty Samples.user_session
         then lookup ty (_listen_keys m') = None
              /\ lookup ty (_timers m') = None
              /\ In (ClientCall (stream_close_method ty)
                       (lookup ty (_listen_keys Samples.user_session)))
                   calls
         else lookup ty (_listen_keys m')
              = lookup ty (_listen_keys Samples.user_session)
              /\ lookup ty (_timers m')
                 = lookup ty (_timers Samples.user_session).
Proof.
  apply (stop_socket_releases_carried_sessions Samples.listen_key_A
           (fst (RW.new STREAM_URL Samples.listen_key_A (Some 1%nat) "ws/"))
           Samples.user_session).
  - vm_compute. reflexivity.
  - discriminate.
Defined.

Lemma check_account_socket_open_truthy (listen_key : string) (m : t) :
  str_truthy listen_key = true ->
  _check_account_socket_open listen_key m
  = check_loop listen_key (Dict.keys (_conns m)) m.
Proof.
  intros Ht. unfold _check_account_socket_open. rewrite Ht. reflexivity.
Qed.

(** X20: when an account socket is started with the listen key that is
    already recorded for its type while a registered key carries it, the
    cleanup closes that very listen key through the client; the key is
    then recorded and registered again. *)
Theorem restart_closes_the_listen_key_in_use (ty : socket_type)
    (listen_key : string) (cb : option callback) (m : t) :
  sound m ->
  str_truthy listen_key = true ->
  (exists k, In k (Dict.keys (_conns m))
             /\ has_listen_key k listen_key = true) ->
  lookup ty (_listen_keys m) = Some listen_key ->
  exists r m',
    _start_account_socket ty listen_key cb m = Ok r m'
    /\ In (ClientCall (stream_close_method ty) (Some listen_key))
          (trace m')
    /\ lookup ty (_listen_keys m') = Some listen_key
    /\ Dict.mem listen_key (_conns m') = true.
Proof.
  intros S Ht Hex Hl.
  destruct (check_loop_some_match listen_key (Dict.keys (_conns m)) m Hex)
    as (k' & Hin & Hk' & Hrun).
  apply DictFacts.mem_keys in Hin. unfold Dict.mem in Hin.
  destruct (Dict.get k' (_conns m)) as [c|] eqn:Hg; [|discriminate].
  assert (Hstop : exists m2,
            _check_account_socket_open listen_key m = Ok tt m2
            /\ In (ClientCall (stream_close_method ty) (Some listen_key))
                  (trace m2)).
  { rewrite (check_account_socket_open_truthy listen_key m Ht), Hrun.
    unfold stop_socket. unfold bind at 1, gets at 1. rewrite Hg.
    destruct (cancel_some c (proj2 S _ _ Hg)) as (c' & e & ->).
    unfold bind at 1, modify at 1.
    destruct (stop_socket_loop_full k' socket_types
                (emit (Cancel k')
                   (set_conns (Dict.del k' (_conns m)) m)))
      as (m2 & calls & -> & _ & Htr & Hty).
    exists m2. split; [reflexivity|].
    specialize (Hty ty).
    replace (existsb (socket_type_eqb ty) socket_types) with true in Hty
      by (destruct ty; reflexivity).
    assert (Ec : carries_session k' ty
                   (emit (Cancel k')
                      (set_conns (Dict.del k' (_conns m)) m)) = true).
    { unfold carries_session. simpl. rewrite Hl, Ht, Hk'. reflexivity. }
    rewrite Ec in Hty. simpl in Hty. destruct Hty as (_ & _ & Hcall).
    rewrite Hl in Hcall. rewrite Htr. apply in_or_app. now right. }
  destruct Hstop as (m2 & Hcheck & Hcall).
  unfold _start_account_socket. unfold bind at 1. rewrite Hcheck.
  unfold bind at 1, modify at 1. unfold bind at 1, modify at 1.
  unfold bind at 1.
  match goal with
  | |- context [_start_socket ?p ?c ?x ?y ?s] =>
      destruct (Dict.mem p (_conns s)) eqn:Em;
      [rewrite (start_socket_active s p x c y Em)
      |rewrite (start_socket_fresh s p x c y Em)]
  end.
  - simpl started_truthy. cbv iota. unfold bind, ret.
    eexists. eexists. split; [reflexivity|]. simpl.
    rewrite lookup_update_same. auto.
  - unfold started_truthy. rewrite Ht. unfold bind, _start_socket_timer,
      modify, ret.
    eexists. eexists. split; [reflexivity|]. simpl.
    rewrite lookup_update_same, DictFacts.mem_set, String.eqb_refl.
    repeat split. apply in_or_app. left. apply in_or_app. now left.
Qed.

Lemma restart_closes_the_listen_key_in_use_witness :
  exists r m',
    _start_account_socket user Samples.listen_key_A (Some 1%nat)
      Samples.user_session = Ok r m'
    /\ In (ClientCall (stream_close_method user)
             (Some Samples.listen_key_A)) (trace m')
    /\ lookup user (_listen_keys m') = Some Samples.listen_key_A
    /\ Dict.mem Samples.listen_key_A (_conns m') = true.
Proof.
  assert (E : _conns Samples.user_session
              = [("btcusdt@trade",
                  fst (RW.new STREAM_URL "btcusdt@trade" (Some 0%nat) "ws/"));
                 (Samples.listen_key_A,
                  fst (RW.new STREAM_URL Samples.listen_key_A (Some 1%nat)
                         "ws/"))])
    by (vm_compute; reflexivity).
  apply (restart_closes_the_listen_key_in_use user Samples.listen_key_A
           (Some 1%nat) Samples.user_session).
  - split.
    + unfold unique_keys. rewrite E. vm_compute.
      constructor; [intros [H|[]]; discriminate H|].
      constructor; [intros []|]. constructor.
    + intros k c. rewrite E. simpl.
      destruct (String.eqb k "btcusdt@trade");
        [intros [= <-]; discriminate|].
      destruct (String.eqb k Samples.listen_key_A);
        [intros [= <-]; discriminate | discriminate].
  - reflexivity.
  - exists Samples.listen_key_A. rewrite E. split.
    + simpl. right. now left.
    + vm_compute. reflexivity.
  - vm_compute. reflexivity.
Defined.

End ManagerExtras.
